(** * brynet HTTP message formatting (include/brynet/net/http/HttpFormat.hpp)

    A shallow embedding of the three builder classes of HttpFormat.hpp,
    [HttpQueryParameter], [HttpRequest] and [HttpResponse], and the
    properties of the byte strings their [getResult] methods produce.

    Modelling conventions.
    - [std::string] is [string]: a finite sequence of 8-bit characters.
      [operator<] on [std::string] is [String.compare], the lexicographic
      comparison of the characters as unsigned bytes.
    - [std::map<std::string, std::string>] is a list of (key, value) pairs
      kept in ascending key order, which is the order a range-for visits
      the container in.
    - Every member function is a computation in a small state monad over the
      object's data members. A computation yields [None] when the process is
      aborted by a failed [assert]; [NDEBUG] says whether [assert] is compiled
      out.
    - A [const std::string&] parameter that can refer to a member of the
      object it is passed to is modelled as a reference and read when it is
      used ([HttpQueryParameter.argument]); the other string parameters
      cannot alias a member, no accessor hands one out, and are values.
    - [int] and [unsigned] are 32 bits wide. *)

From Stdlib Require Import ZArith NArith List Bool Lia Ascii String.
From Stdlib Require Import Permutation Sorted DecimalString.
From Stdlib Require OrderedTypeEx.
Import ListNotations.

Local Open Scope Z_scope.
Local Open Scope list_scope.
Local Open Scope string_scope.

(** ** Characters and library routines *)

(** The two-byte line terminator written "\r\n" in the source. *)
Definition CRLF : string := String "013"%char (String "010"%char EmptyString).

(** [std::string::empty]. *)
Definition empty (s : string) : bool :=
  match s with
  | EmptyString => true
  | String _ _ => false
  end.

(** [std::to_string] at an unsigned argument ([size_t]). *)
Definition to_string_size (n : nat) : string :=
  NilEmpty.string_of_uint (N.to_uint (N.of_nat n)).

(** [std::to_string] at an [int] argument. *)
Definition to_string_int (z : Z) : string :=
  NilEmpty.string_of_int (Z.to_int z).

(** [static_cast<int>] of a value of an enumeration over [unsigned]: a value
    [int] can represent is kept; the values from 2^31 on are reduced modulo
    2^32 to the negative numbers (the rule of C++20, and what compilers do
    under the earlier standards, which leave the result unspecified). *)
Definition static_cast_int (u : Z) : Z :=
  let r := u mod 2 ^ 32 in
  if (r <? 2 ^ 31)%Z then r else r - 2 ^ 32.

(** ** The monad of member functions *)

Module Method.

Definition M (St A : Type) : Type := St -> option (A * St).

Definition pure {St A} (a : A) : M St A := fun s => Some (a, s).

Definition bind {St A B} (c : M St A) (k : A -> M St B) : M St B :=
  fun s =>
    match c s with
    | Some (a, s') => k a s'
    | None => None
    end.

(** Read the data members ([*this]). *)
Definition this {St} : M St St := fun s => Some (s, s).

(** Assign to the data members. *)
Definition update {St} (f : St -> St) : M St unit := fun s => Some (tt, f s).

(** The [assert] macro of <cassert>: nothing when [NDEBUG] is defined or
    the condition holds, otherwise the process is aborted. *)
Definition assert {St} (NDEBUG : bool) (cond : bool) : M St unit :=
  fun s => if NDEBUG || cond then Some (tt, s) else None.

(** The value returned by a call, and the object after it. *)
Definition eval {St A} (c : M St A) (s : St) : option A :=
  option_map fst (c s).

Definition exec {St A} (c : M St A) (s : St) : option St :=
  option_map snd (c s).

(** A sequence of calls. *)
Fixpoint each {St A} (f : A -> M St unit) (l : list A) : M St unit :=
  match l with
  | [] => pure tt
  | a :: l' => bind (f a) (fun _ => each f l')
  end.

End Method.

Import Method.

Declare Scope method_scope.
Delimit Scope method_scope with method.
Notation "x <- c ;; k" := (bind c (fun x => k))
  (at level 61, c at next level, right associativity) : method_scope.
Notation "c ;; k" := (bind c (fun _ => k))
  (at level 61, right associativity) : method_scope.
Local Open Scope method_scope.

(** ** [std::map<std::string, std::string>] *)

Module StdMap.

Definition t : Type := list (string * string).

(** [m[k] = v]: the entry for [k] is created at its place in key order when
    the key is absent, and its value is assigned. *)
Fixpoint assign (k v : string) (m : t) : t :=
  match m with
  | [] => [(k, v)]
  | (k', v') :: m' =>
      match String.compare k k' with
      | Lt => (k, v) :: (k', v') :: m'
      | Eq => (k', v) :: m'
      | Gt => (k', v') :: assign k v m'
      end
  end.

Definition keys (m : t) : list string := map fst m.

(** The order of the container: [std::less<std::string>]. *)
Definition key_lt (a b : string) : Prop := String.compare a b = Lt.

(** The representation invariant: keys strictly ascending. *)
Definition ordered (m : t) : Prop := StronglySorted key_lt (keys m).

End StdMap.

(** ** class HttpQueryParameter *)

Module HttpQueryParameter.

Record t : Type := mk { mParameter : string }.

(** A default-constructed object. *)
Definition construct : t := {| mParameter := "" |}.

(** An argument of type [const std::string&]: a reference to a string of
    the caller's own, or to the accumulator [mParameter] of the object
    itself, which is what [getResult] hands out. *)
Inductive argument : Type :=
| Value (s : string)
| Result.

(** Read through the reference, at the moment of the use. *)
Definition read (a : argument) : M t string :=
  self <- this ;;
  pure match a with
       | Value s => s
       | Result => mParameter self
       end.

Definition add (k v : argument) : M t unit :=
  self <- this ;;
  (if negb (empty (mParameter self))
   then update (fun o => {| mParameter := mParameter o ++ "&" |})
   else pure tt) ;;
  k_now <- read k ;;
  update (fun o => {| mParameter := mParameter o ++ k_now |}) ;;
  update (fun o => {| mParameter := mParameter o ++ "=" |}) ;;
  v_now <- read v ;;
  update (fun o => {| mParameter := mParameter o ++ v_now |}).

Definition getResult : M t string :=
  self <- this ;;
  pure (mParameter self).

End HttpQueryParameter.

(** ** The header loop shared by both serializers

    [for (auto& v : mHeadField) { ret += v.first; ret += ": ";
                                  ret += v.second; ret += "\r\n"; }] *)

Definition append_headers (ret : string) (mHeadField : StdMap.t) : string :=
  fold_left
    (fun ret v =>
       let ret := ret ++ fst v in
       let ret := ret ++ ": " in
       let ret := ret ++ snd v in
       ret ++ CRLF)
    mHeadField ret.

(** ** class HttpRequest *)

Module HttpRequest.

(** [enum class HTTP_METHOD]: a scoped enumeration over [int]. *)
Definition HTTP_METHOD : Type := Z.
Definition HTTP_METHOD_HEAD : HTTP_METHOD := 0.
Definition HTTP_METHOD_GET : HTTP_METHOD := 1.
Definition HTTP_METHOD_POST : HTTP_METHOD := 2.
Definition HTTP_METHOD_PUT : HTTP_METHOD := 3.
Definition HTTP_METHOD_DELETE : HTTP_METHOD := 4.
Definition HTTP_METHOD_MAX : HTTP_METHOD := 5.

Record t : Type := mk {
  mUrl : string;
  mQuery : string;
  mBody : string;
  mMethod : HTTP_METHOD;
  mHeadField : StdMap.t
}.

Definition with_mUrl (x : string) (o : t) : t :=
  mk x (mQuery o) (mBody o) (mMethod o) (mHeadField o).
Definition with_mQuery (x : string) (o : t) : t :=
  mk (mUrl o) x (mBody o) (mMethod o) (mHeadField o).
Definition with_mBody (x : string) (o : t) : t :=
  mk (mUrl o) (mQuery o) x (mMethod o) (mHeadField o).
Definition with_mMethod (x : HTTP_METHOD) (o : t) : t :=
  mk (mUrl o) (mQuery o) (mBody o) x (mHeadField o).
Definition with_mHeadField (x : StdMap.t) (o : t) : t :=
  mk (mUrl o) (mQuery o) (mBody o) (mMethod o) x.

(** The table local to [getResult]. *)
Definition HttpMethodString : list string :=
  ["HEAD"; "GET"; "POST"; "PUT"; "DELETE"].

Definition addHeadValue (field value : string) : M t unit :=
  update (fun o => with_mHeadField (StdMap.assign field value (mHeadField o)) o).

Definition setHost (host : string) : M t unit := addHeadValue "Host" host.

Definition setUrl (url : string) : M t unit := update (with_mUrl url).

Definition setCookie (v : string) : M t unit := addHeadValue "Cookie" v.

Definition setContentType (v : string) : M t unit :=
  addHeadValue "Content-Type" v.

Definition setQuery (query : string) : M t unit := update (with_mQuery query).

(** Both overloads of [setBody], taking the body by reference and by
    rvalue reference, store the same header and the same body. *)
Definition setBody (body : string) : M t unit :=
  addHeadValue "Content-Length" (to_string_size (String.length body)) ;;
  update (with_mBody body).

Definition getResult : M t string :=
  self <- this ;;
  let ret := "" in
  let ret :=
    if (mMethod self >=? HTTP_METHOD_HEAD)%Z && (mMethod self <? HTTP_METHOD_MAX)%Z
    then ret ++ nth (Z.to_nat (mMethod self)) HttpMethodString ""
    else ret in
  let ret := ret ++ " " in
  let ret := ret ++ mUrl self in
  let ret :=
    if negb (empty (mQuery self))
    then (ret ++ "?") ++ mQuery self
    else ret in
  let ret := ret ++ " HTTP/1.1" ++ CRLF in
  let ret := append_headers ret (mHeadField self) in
  let ret := ret ++ CRLF in
  let ret := if negb (empty (mBody self)) then ret ++ mBody self else ret in
  pure ret.

(** The setters a caller can invoke, as data, to speak about arbitrary
    sequences of calls. *)
Inductive setter : Type :=
| SetMethod (protocol : HTTP_METHOD)
| SetHost (host : string)
| SetUrl (url : string)
| SetCookie (v : string)
| SetContentType (v : string)
| SetQuery (query : string)
| SetBody (body : string)
| AddHeadValue (field value : string).

Section Build.

(** Whether the translation unit is compiled with [NDEBUG]. *)
Variable NDEBUG : bool.

Definition setMethod (protocol : HTTP_METHOD) : M t unit :=
  update (with_mMethod protocol) ;;
  self <- this ;;
  assert NDEBUG ((mMethod self >? HTTP_METHOD_HEAD)%Z &&
                 (mMethod self <? HTTP_METHOD_MAX)%Z).

(** The members before the constructor body runs: the strings and the map
    are empty; [mMethod] has no initializer and holds [indeterminate]
    until [setMethod] assigns it. *)
Definition members (indeterminate : HTTP_METHOD) : t :=
  mk "" "" "" indeterminate [].

Definition construct_over (indeterminate : HTTP_METHOD) : option t :=
  exec (setMethod HTTP_METHOD_GET) (members indeterminate).

Definition construct : option t := construct_over HTTP_METHOD_MAX.

Definition call (c : setter) : M t unit :=
  match c with
  | SetMethod protocol => setMethod protocol
  | SetHost host => setHost host
  | SetUrl url => setUrl url
  | SetCookie v => setCookie v
  | SetContentType v => setContentType v
  | SetQuery query => setQuery query
  | SetBody body => setBody body
  | AddHeadValue field value => addHeadValue field value
  end.

(** The object after construction followed by the calls [cs]. *)
Definition after (cs : list setter) : option t :=
  match construct with
  | Some o => exec (each call cs) o
  | None => None
  end.

(** What [getResult] returns after construction followed by the calls [cs]. *)
Definition serialized (cs : list setter) : option string :=
  match construct with
  | Some o => eval (each call cs ;; getResult) o
  | None => None
  end.

End Build.

End HttpRequest.

(** ** class HttpResponse *)

Module HttpResponse.

(** [enum class status : unsigned]: a scoped enumeration over [unsigned];
    every unsigned value is a value of the type, the enumerators name some
    of them. *)
Module status.
Definition t : Type := Z.
Abbreviation unknown := 0%Z (only parsing).
Abbreviation continue_ := 100%Z (only parsing).
Abbreviation switching_protocols := 101%Z (only parsing).
Abbreviation processing := 102%Z (only parsing).
Abbreviation ok := 200%Z (only parsing).
Abbreviation created := 201%Z (only parsing).
Abbreviation accepted := 202%Z (only parsing).
Abbreviation non_authoritative_information := 203%Z (only parsing).
Abbreviation no_content := 204%Z (only parsing).
Abbreviation reset_content := 205%Z (only parsing).
Abbreviation partial_content := 206%Z (only parsing).
Abbreviation multi_status := 207%Z (only parsing).
Abbreviation already_reported := 208%Z (only parsing).
Abbreviation im_used := 226%Z (only parsing).
Abbreviation multiple_choices := 300%Z (only parsing).
Abbreviation moved_permanently := 301%Z (only parsing).
Abbreviation found := 302%Z (only parsing).
Abbreviation see_other := 303%Z (only parsing).
Abbreviation not_modified := 304%Z (only parsing).
Abbreviation use_proxy := 305%Z (only parsing).
Abbreviation temporary_redirect := 307%Z (only parsing).
Abbreviation permanent_redirect := 308%Z (only parsing).
Abbreviation bad_request := 400%Z (only parsing).
Abbreviation unauthorized := 401%Z (only parsing).
Abbreviation payment_required := 402%Z (only parsing).
Abbreviation forbidden := 403%Z (only parsing).
Abbreviation not_found := 404%Z (only parsing).
Abbreviation method_not_allowed := 405%Z (only parsing).
Abbreviation not_acceptable := 406%Z (only parsing).
Abbreviation proxy_authentication_required := 407%Z (only parsing).
Abbreviation request_timeout := 408%Z (only parsing).
Abbreviation conflict := 409%Z (only parsing).
Abbreviation gone := 410%Z (only parsing).
Abbreviation length_required := 411%Z (only parsing).
Abbreviation precondition_failed := 412%Z (only parsing).
Abbreviation payload_too_large := 413%Z (only parsing).
Abbreviation uri_too_long := 414%Z (only parsing).
Abbreviation unsupported_media_type := 415%Z (only parsing).
Abbreviation range_not_satisfiable := 416%Z (only parsing).
Abbreviation expectation_failed := 417%Z (only parsing).
Abbreviation misdirected_request := 421%Z (only parsing).
Abbreviation unprocessable_entity := 422%Z (only parsing).
Abbreviation locked := 423%Z (only parsing).
Abbreviation failed_dependency := 424%Z (only parsing).
Abbreviation upgrade_required := 426%Z (only parsing).
Abbreviation precondition_required := 428%Z (only parsing).
Abbreviation too_many_requests := 429%Z (only parsing).
Abbreviation request_header_fields_too_large := 431%Z (only parsing).
Abbreviation connection_closed_without_response := 444%Z (only parsing).
Abbreviation unavailable_for_legal_reasons := 451%Z (only parsing).
Abbreviation client_closed_request := 499%Z (only parsing).
Abbreviation internal_server_error := 500%Z (only parsing).
Abbreviation not_implemented := 501%Z (only parsing).
Abbreviation bad_gateway := 502%Z (only parsing).
Abbreviation service_unavailable := 503%Z (only parsing).
Abbreviation gateway_timeout := 504%Z (only parsing).
Abbreviation http_version_not_supported := 505%Z (only parsing).
Abbreviation variant_also_negotiates := 506%Z (only parsing).
Abbreviation insufficient_storage := 507%Z (only parsing).
Abbreviation loop_detected := 508%Z (only parsing).
Abbreviation not_extended := 510%Z (only parsing).
Abbreviation network_authentication_required := 511%Z (only parsing).
Abbreviation network_connect_timeout_error := 599%Z (only parsing).
End status.

Record t : Type := mk {
  mStatus : status.t;
  mHeadField : StdMap.t;
  mBody : string
}.

Definition with_mStatus (x : status.t) (o : t) : t :=
  mk x (mHeadField o) (mBody o).
Definition with_mHeadField (x : StdMap.t) (o : t) : t :=
  mk (mStatus o) x (mBody o).
Definition with_mBody (x : string) (o : t) : t :=
  mk (mStatus o) (mHeadField o) x.

Definition setStatus (status : status.t) : M t unit :=
  update (with_mStatus status).

Definition addHeadValue (field value : string) : M t unit :=
  update (fun o => with_mHeadField (StdMap.assign field value (mHeadField o)) o).

Definition setContentType (v : string) : M t unit :=
  addHeadValue "Content-Type" v.

(** Both overloads of [setBody], taking the body by reference and by
    rvalue reference, store the same header and the same body. *)
Definition setBody (body : string) : M t unit :=
  addHeadValue "Content-Length" (to_string_size (String.length body)) ;;
  update (with_mBody body).

(** The [switch (mStatus)] of [toStatusString] and the [return] behind it,
    as a function of the member it reads. *)
Definition toStatusString_switch (mStatus : status.t) : string :=
  match mStatus with
  | status.continue_ => "Continue"
  | status.switching_protocols => "Switching Protocols"
  | status.processing => "Processing"
  | status.ok => "OK"
  | status.created => "Created"
  | status.accepted => "Accepted"
  | status.non_authoritative_information => "Non-Authoritative Information"
  | status.no_content => "No Content"
  | status.reset_content => "Reset Content"
  | status.partial_content => "Partial Content"
  | status.multi_status => "Multi-Status"
  | status.already_reported => "Already Reported"
  | status.im_used => "IM Used"
  | status.multiple_choices => "Multiple Choices"
  | status.moved_permanently => "Moved Permanently"
  | status.found => "Found"
  | status.see_other => "See Other"
  | status.not_modified => "Not Modified"
  | status.use_proxy => "Use Proxy"
  | status.temporary_redirect => "Temporary Redirect"
  | status.permanent_redirect => "Permanent Redirect"
  | status.bad_request => "Bad Request"
  | status.unauthorized => "Unauthorized"
  | status.payment_required => "Payment Required"
  | status.forbidden => "Forbidden"
  | status.not_found => "Not Found"
  | status.method_not_allowed => "Method Not Allowed"
  | status.not_acceptable => "Not Acceptable"
  | status.proxy_authentication_required => "Proxy Authentication Required"
  | status.request_timeout => "Request Timeout"
  | status.conflict => "Conflict"
  | status.gone => "Gone"
  | status.length_required => "Length Required"
  | status.precondition_failed => "Precondition Failed"
  | status.payload_too_large => "Payload Too Large"
  | status.uri_too_long => "URI Too Long"
  | status.unsupported_media_type => "Unsupported Media Type"
  | status.range_not_satisfiable => "Range Not Satisfiable"
  | status.expectation_failed => "Expectation Failed"
  | status.misdirected_request => "Misdirected Request"
  | status.unprocessable_entity => "Unprocessable Entity"
  | status.locked => "Locked"
  | status.failed_dependency => "Failed Dependency"
  | status.upgrade_required => "Upgrade Required"
  | status.precondition_required => "Precondition Required"
  | status.too_many_requests => "Too Many Requests"
  | status.request_header_fields_too_large => "Request Header Fields Too Large"
  | status.connection_closed_without_response => "Connection Closed Without Response"
  | status.unavailable_for_legal_reasons => "Unavailable For Legal Reasons"
  | status.client_closed_request => "Client Closed Request"
  | status.internal_server_error => "Internal Server Error"
  | status.not_implemented => "Not Implemented"
  | status.bad_gateway => "Bad Gateway"
  | status.service_unavailable => "Service Unavailable"
  | status.gateway_timeout => "Gateway Timeout"
  | status.http_version_not_supported => "HTTP Version Not Supported"
  | status.variant_also_negotiates => "Variant Also Negotiates"
  | status.insufficient_storage => "Insufficient Storage"
  | status.loop_detected => "Loop Detected"
  | status.not_extended => "Not Extended"
  | status.network_authentication_required => "Network Authentication Required"
  | status.network_connect_timeout_error => "Network Connect Timeout Error"
  | _ => "<unknown-status>"
  end.

Definition toStatusString : M t string :=
  self <- this ;;
  pure (toStatusString_switch (mStatus self)).

(** The case labels of the switch in [toStatusString]. *)
Definition mapped : list status.t :=
  [status.continue_; status.switching_protocols; status.processing;
   status.ok; status.created; status.accepted;
   status.non_authoritative_information; status.no_content;
   status.reset_content; status.partial_content; status.multi_status;
   status.already_reported; status.im_used; status.multiple_choices;
   status.moved_permanently; status.found; status.see_other;
   status.not_modified; status.use_proxy; status.temporary_redirect;
   status.permanent_redirect; status.bad_request; status.unauthorized;
   status.payment_required; status.forbidden; status.not_found;
   status.method_not_allowed; status.not_acceptable;
   status.proxy_authentication_required; status.request_timeout;
   status.conflict; status.gone; status.length_required;
   status.precondition_failed; status.payload_too_large;
   status.uri_too_long; status.unsupported_media_type;
   status.range_not_satisfiable; status.expectation_failed;
   status.misdirected_request; status.unprocessable_entity;
   status.locked; status.failed_dependency; status.upgrade_required;
   status.precondition_required; status.too_many_requests;
   status.request_header_fields_too_large;
   status.connection_closed_without_response;
   status.unavailable_for_legal_reasons; status.client_closed_request;
   status.internal_server_error; status.not_implemented;
   status.bad_gateway; status.service_unavailable;
   status.gateway_timeout; status.http_version_not_supported;
   status.variant_also_negotiates; status.insufficient_storage;
   status.loop_detected; status.not_extended;
   status.network_authentication_required;
   status.network_connect_timeout_error].

Definition getResult : M t string :=
  self <- this ;;
  let ret := "HTTP/1.1 " in
  let ret := ret ++ to_string_int (static_cast_int (mStatus self)) in
  let ret := ret ++ " " in
  phrase <- toStatusString ;;
  let ret := ret ++ phrase in
  let ret := ret ++ CRLF in
  let ret := append_headers ret (mHeadField self) in
  let ret := ret ++ CRLF in
  let ret := if negb (empty (mBody self)) then ret ++ mBody self else ret in
  pure ret.

(** [HttpResponse(status state = status::ok, bool isKeepAlive = true)]:
    [mStatus] is initialized from [state], the map and the body are empty,
    then the body of the constructor runs. *)
Definition construct (state : status.t) (isKeepAlive : bool) : option t :=
  exec
    (if isKeepAlive
     then addHeadValue "Connection" "Keep-Alive"
     else addHeadValue "Connection" "Close")
    (mk state [] "").

(** Construction with both default arguments. *)
Definition construct_default : option t := construct status.ok true.

Inductive setter : Type :=
| SetStatus (status : status.t)
| SetContentType (v : string)
| AddHeadValue (field value : string)
| SetBody (body : string).

Definition call (c : setter) : M t unit :=
  match c with
  | SetStatus status => setStatus status
  | SetContentType v => setContentType v
  | AddHeadValue field value => addHeadValue field value
  | SetBody body => setBody body
  end.

(** The object after construction followed by the calls [cs]. *)
Definition after (state : status.t) (isKeepAlive : bool)
    (cs : list setter) : option t :=
  match construct state isKeepAlive with
  | Some o => exec (each call cs) o
  | None => None
  end.

(** What [getResult] returns after construction followed by the calls [cs]. *)
Definition serialized (state : status.t) (isKeepAlive : bool)
    (cs : list setter) : option string :=
  match construct state isKeepAlive with
  | Some o => eval (each call cs ;; getResult) o
  | None => None
  end.

End HttpResponse.

(** ** Vocabulary of the wire format

    The pieces a serialized message is made of, named so that the theorems
    below can say where each of them sits in the output. *)

(** One header line: [Field: Value] and the line terminator. *)
Definition header_line (field value : string) : string :=
  field ++ ": " ++ value ++ CRLF.

(** The header lines of the entries of a map, in the order of the list. *)
Fixpoint header_block (m : StdMap.t) : string :=
  match m with
  | [] => ""
  | (field, value) :: m' => header_line field value ++ header_block m'
  end.

(** The request line [<METHOD> <url>[?<query>] HTTP/1.1]; a method value
    outside the enumerators [HEAD .. DELETE] has no token. *)
Definition method_token (m : HttpRequest.HTTP_METHOD) : string :=
  if (0 <=? m)%Z && (m <? 5)%Z
  then nth (Z.to_nat m) HttpRequest.HttpMethodString ""
  else "".

Definition request_line (o : HttpRequest.t) : string :=
  method_token (HttpRequest.mMethod o) ++ " " ++ HttpRequest.mUrl o ++
  (if empty (HttpRequest.mQuery o) then "" else "?" ++ HttpRequest.mQuery o) ++
  " HTTP/1.1" ++ CRLF.

(** The status line [HTTP/1.1 <code> <reason-phrase>]. *)
Definition status_line (o : HttpResponse.t) : string :=
  "HTTP/1.1 " ++ to_string_int (static_cast_int (HttpResponse.mStatus o)) ++
  " " ++ HttpResponse.toStatusString_switch (HttpResponse.mStatus o) ++ CRLF.

(** *** Reading a message back

    What a recipient sees in the bytes [getResult] returned: the lines between
    successive line terminators, the first of them the start line, the
    following ones up to the first empty line the header lines, and the bytes
    behind that empty line the body. *)

Definition is_CR (c : ascii) : bool := Ascii.eqb c "013"%char.
Definition is_LF (c : ascii) : bool := Ascii.eqb c "010"%char.

Definition starts_with_LF (s : string) : bool :=
  match s with
  | EmptyString => false
  | String c _ => is_LF c
  end.

(** The pieces of a byte string between successive CRLF, the last piece
    being what follows the last CRLF. *)
Fixpoint lines (s : string) : list string :=
  match s with
  | EmptyString => [EmptyString]
  | String c s' =>
      match s' with
      | EmptyString => [String c EmptyString]
      | String d s'' =>
          if is_CR c && is_LF d
          then EmptyString :: lines s''
          else match lines s' with
               | l :: ls => String c l :: ls
               | [] => [String c EmptyString]
               end
      end
  end.

Fixpoint until_blank (ls : list string) : list string :=
  match ls with
  | [] => []
  | l :: ls' => if empty l then [] else l :: until_blank ls'
  end.

Fixpoint after_blank (ls : list string) : option (list string) :=
  match ls with
  | [] => None
  | l :: ls' => if empty l then Some ls' else after_blank ls'
  end.

(** The header lines of a message: the lines behind the start line, up to
    the first empty line. *)
Definition header_lines (out : string) : list string :=
  until_blank (tl (lines out)).

(** The body of a message: the bytes behind the first empty line, if there
    is one. *)
Definition body_bytes (out : string) : option string :=
  option_map (String.concat CRLF) (after_blank (tl (lines out))).

(** The header lines of a message for the field [k]: those of the form
    [k: <value>]. *)
Definition lines_for (k out : string) : list string :=
  filter (String.prefix (k ++ ": ")) (header_lines out).

(** The text of a header line, without its terminator. *)
Definition header_text (field value : string) : string :=
  field ++ ": " ++ value.

(** Strings that hold a line terminator, and strings that hold a colon. *)
Fixpoint has_crlf (s : string) : bool :=
  match s with
  | EmptyString => false
  | String c s' => (is_CR c && starts_with_LF s') || has_crlf s'
  end.

Fixpoint has_colon (s : string) : bool :=
  match s with
  | EmptyString => false
  | String c s' => Ascii.eqb c ":"%char || has_colon s'
  end.

(** A field name that stays one field name on the wire, and a value (or url,
    or query) that stays on its line. *)
Definition safe_field (k : string) : bool :=
  negb (has_colon k) && negb (has_crlf k).

Definition safe_value (v : string) : bool := negb (has_crlf v).

Definition safe_headers (m : StdMap.t) : bool :=
  forallb (fun e => safe_field (fst e) && safe_value (snd e)) m.

Definition safe_request (o : HttpRequest.t) : bool :=
  safe_value (HttpRequest.mUrl o) && safe_value (HttpRequest.mQuery o) &&
  safe_headers (HttpRequest.mHeadField o).

(** The request line and the status line without their terminator. *)
Definition request_start (o : HttpRequest.t) : string :=
  method_token (HttpRequest.mMethod o) ++ " " ++ HttpRequest.mUrl o ++
  (if empty (HttpRequest.mQuery o) then "" else "?" ++ HttpRequest.mQuery o) ++
  " HTTP/1.1".

Definition status_start (st : HttpResponse.status.t) : string :=
  "HTTP/1.1 " ++ to_string_int (static_cast_int st) ++
  " " ++ HttpResponse.toStatusString_switch st.

(** The call [add(k, v)] with both arguments strings of the caller's own. *)
Definition add_pair (p : string * string) : M HttpQueryParameter.t unit :=
  HttpQueryParameter.add
    (HttpQueryParameter.Value (fst p)) (HttpQueryParameter.Value (snd p)).

(** A number in decimal, without sign or padding. *)
Definition decimal (n : Z) : string :=
  NilEmpty.string_of_uint (N.to_uint (Z.to_N n)).

(** The values of [unsigned]. *)
Definition unsigned_range (n : Z) : Prop := 0 <= n < 2 ^ 32.

(** The status line of [out] shows the status [st] in decimal, followed by
    the placeholder phrase. *)
Definition shows_unknown_status (st : HttpResponse.status.t) (out : string) : bool :=
  String.prefix ("HTTP/1.1 " ++ decimal st ++ " <unknown-status>" ++ CRLF) out.

(** The calls [addHeadValue(k, v)] for the pairs of a list, in list order. *)
Definition request_headers (l : list (string * string)) : list HttpRequest.setter :=
  map (fun p => HttpRequest.AddHeadValue (fst p) (snd p)) l.

Definition response_headers (l : list (string * string)) : list HttpResponse.setter :=
  map (fun p => HttpResponse.AddHeadValue (fst p) (snd p)) l.

(** The map after the assignments [m[k] = v] for the pairs of a list, in
    list order. *)
Definition assign_all (l : list (string * string)) (m : StdMap.t) : StdMap.t :=
  fold_left (fun m p => StdMap.assign (fst p) (snd p) m) l m.

(** One pair [key=value] of a query string. *)
Definition query_pair (p : string * string) : string :=
  fst p ++ "=" ++ snd p.

(** Two calls of [getResult] in a row, returning both results. *)
Definition twice {St} (getResult : M St string) : M St (string * string) :=
  first <- getResult ;;
  second <- getResult ;;
  pure (first, second).

(** A request in the middle of its assembly, and the calls that lead to it. *)
Definition sample_calls : list HttpRequest.setter :=
  [HttpRequest.SetUrl "/upload"; HttpRequest.SetHost "example.org";
   HttpRequest.SetBody "old"].

Definition sample_request : HttpRequest.t :=
  HttpRequest.mk "/upload" "" "old" HttpRequest.HTTP_METHOD_GET
    [("Content-Length", "3"); ("Host", "example.org")].

(** ** Vocabulary of call sequences *)

(** The parts of an object a setter assigns to. *)
Inductive slot : Type :=
| UrlSlot
| QuerySlot
| BodySlot
| MethodSlot
| StatusSlot
| HeaderSlot (field : string).

Definition request_slots (c : HttpRequest.setter) : list slot :=
  match c with
  | HttpRequest.SetMethod _ => [MethodSlot]
  | HttpRequest.SetHost _ => [HeaderSlot "Host"]
  | HttpRequest.SetUrl _ => [UrlSlot]
  | HttpRequest.SetCookie _ => [HeaderSlot "Cookie"]
  | HttpRequest.SetContentType _ => [HeaderSlot "Content-Type"]
  | HttpRequest.SetQuery _ => [QuerySlot]
  | HttpRequest.SetBody _ => [HeaderSlot "Content-Length"; BodySlot]
  | HttpRequest.AddHeadValue field _ => [HeaderSlot field]
  end.

Definition response_slots (c : HttpResponse.setter) : list slot :=
  match c with
  | HttpResponse.SetStatus _ => [StatusSlot]
  | HttpResponse.SetContentType _ => [HeaderSlot "Content-Type"]
  | HttpResponse.AddHeadValue field _ => [HeaderSlot field]
  | HttpResponse.SetBody _ => [HeaderSlot "Content-Length"; BodySlot]
  end.

(** Two setters that assign to no common part. *)
Definition apart (a b : list slot) : Prop :=
  forall s, In s a -> ~ In s b.

(** The header assignments [mHeadField[field] = value] a sequence of calls
    makes, in call order. *)
Definition request_header_writes (cs : list HttpRequest.setter)
    : list (string * string) :=
  flat_map
    (fun c =>
       match c with
       | HttpRequest.SetHost host => [("Host", host)]
       | HttpRequest.SetCookie v => [("Cookie", v)]
       | HttpRequest.SetContentType v => [("Content-Type", v)]
       | HttpRequest.SetBody body =>
           [("Content-Length", to_string_size (String.length body))]
       | HttpRequest.AddHeadValue field value => [(field, value)]
       | HttpRequest.SetMethod _ | HttpRequest.SetUrl _
       | HttpRequest.SetQuery _ => []
       end)
    cs.

Definition response_header_writes (cs : list HttpResponse.setter)
    : list (string * string) :=
  flat_map
    (fun c =>
       match c with
       | HttpResponse.SetContentType v => [("Content-Type", v)]
       | HttpResponse.SetBody body =>
           [("Content-Length", to_string_size (String.length body))]
       | HttpResponse.AddHeadValue field value => [(field, value)]
       | HttpResponse.SetStatus _ => []
       end)
    cs.

(** The value of the last assignment to the field [k] in a list of
    assignments, if there is one. *)
Fixpoint last_value (k : string) (ws : list (string * string)) : option string :=
  match ws with
  | [] => None
  | (field, value) :: ws' =>
      match last_value k ws' with
      | Some later => Some later
      | None => if String.eqb field k then Some value else None
      end
  end.

(** The condition asserted by [setMethod]. *)
Definition asserted (m : HttpRequest.HTTP_METHOD) : Prop := 0 < m < 5.

(** The enumerators of [HttpResponse::status], in the order of the
    declaration. *)
Definition status_enumerators : list HttpResponse.status.t :=
  [HttpResponse.status.unknown; HttpResponse.status.continue_;
   HttpResponse.status.switching_protocols; HttpResponse.status.processing;
   HttpResponse.status.ok; HttpResponse.status.created;
   HttpResponse.status.accepted;
   HttpResponse.status.non_authoritative_information;
   HttpResponse.status.no_content; HttpResponse.status.reset_content;
   HttpResponse.status.partial_content; HttpResponse.status.multi_status;
   HttpResponse.status.already_reported; HttpResponse.status.im_used;
   HttpResponse.status.multiple_choices;
   HttpResponse.status.moved_permanently; HttpResponse.status.found;
   HttpResponse.status.see_other; HttpResponse.status.not_modified;
   HttpResponse.status.use_proxy; HttpResponse.status.temporary_redirect;
   HttpResponse.status.permanent_redirect; HttpResponse.status.bad_request;
   HttpResponse.status.unauthorized; HttpResponse.status.payment_required;
   HttpResponse.status.forbidden; HttpResponse.status.not_found;
   HttpResponse.status.method_not_allowed;
   HttpResponse.status.not_acceptable;
   HttpResponse.status.proxy_authentication_required;
   HttpResponse.status.request_timeout; HttpResponse.status.conflict;
   HttpResponse.status.gone; HttpResponse.status.length_required;
   HttpResponse.status.precondition_failed;
   HttpResponse.status.payload_too_large; HttpResponse.status.uri_too_long;
   HttpResponse.status.unsupported_media_type;
   HttpResponse.status.range_not_satisfiable;
   HttpResponse.status.expectation_failed;
   HttpResponse.status.misdirected_request;
   HttpResponse.status.unprocessable_entity; HttpResponse.status.locked;
   HttpResponse.status.failed_dependency;
   HttpResponse.status.upgrade_required;
   HttpResponse.status.precondition_required;
   HttpResponse.status.too_many_requests;
   HttpResponse.status.request_header_fields_too_large;
   HttpResponse.status.connection_closed_without_response;
   HttpResponse.status.unavailable_for_legal_reasons;
   HttpResponse.status.client_closed_request;
   HttpResponse.status.internal_server_error;
   HttpResponse.status.not_implemented; HttpResponse.status.bad_gateway;
   HttpResponse.status.service_unavailable;
   HttpResponse.status.gateway_timeout;
   HttpResponse.status.http_version_not_supported;
   HttpResponse.status.variant_also_negotiates;
   HttpResponse.status.insufficient_storage;
   HttpResponse.status.loop_detected; HttpResponse.status.not_extended;
   HttpResponse.status.network_authentication_required;
   HttpResponse.status.network_connect_timeout_error].

(** What [setBody] establishes and the setters of other fields keep: a
    Content-Length entry carries the length of the body, and without such an
    entry the body is empty. *)
Definition length_declared (m : StdMap.t) (body : string) : Prop :=
  StdMap.ordered m /\
  (forall v, In ("Content-Length", v) m ->
             v = to_string_size (String.length body)) /\
  (~ In "Content-Length" (StdMap.keys m) -> body = "").

(** * Properties *)

(** ** Strings *)

Lemma append_assoc (a b c : string) : (a ++ b) ++ c = a ++ (b ++ c).
Proof.
  induction a as [|x a IH]; simpl; [reflexivity | now rewrite IH].
Qed.

Lemma append_empty_r (a : string) : a ++ "" = a.
Proof.
  induction a as [|x a IH]; simpl; [reflexivity | now rewrite IH].
Qed.

Lemma empty_spec (s : string) : empty s = true <-> s = "".
Proof.
  destruct s; simpl; split; congruence.
Qed.

Lemma append_if_nonempty (a b : string) :
  (if negb (empty b) then a ++ b else a) = a ++ b.
Proof.
  destruct b; simpl; [now rewrite append_empty_r | reflexivity].
Qed.

Lemma prefix_append (a b : string) : String.prefix a (a ++ b) = true.
Proof.
  induction a as [|c a IH]; simpl.
  - now destruct b.
  - destruct (ascii_dec c c) as [_|Hc]; [exact IH | now elim Hc].
Qed.

(** Bring both sides of an equation between concatenations to the same
    right-nested form. *)
Ltac string_normalize :=
  repeat first
    [ rewrite append_assoc
    | rewrite append_empty_r
    | progress cbn [String.append] ].

(** ** The header loop *)

Lemma append_headers_block (m : StdMap.t) (ret : string) :
  append_headers ret m = ret ++ header_block m.
Proof.
  revert ret.
  induction m as [|[k v] m IH]; intros ret; simpl.
  - now rewrite append_empty_r.
  - unfold append_headers in IH |- *. simpl. rewrite IH.
    unfold header_line. now rewrite !append_assoc.
Qed.

Lemma header_block_app (a b : StdMap.t) :
  header_block (a ++ b)%list = header_block a ++ header_block b.
Proof.
  induction a as [|[k v] a IH]; simpl; [reflexivity|].
  now rewrite IH, append_assoc.
Qed.

(** ** The ordered map *)

Module StdMapFacts.

Import StdMap.

Lemma key_lt_trans (a b c : string) : key_lt a b -> key_lt b c -> key_lt a c.
Proof.
  unfold key_lt. intros Hab Hbc.
  apply OrderedTypeEx.String_as_OT.cmp_lt.
  apply OrderedTypeEx.String_as_OT.lt_trans with b;
    now apply OrderedTypeEx.String_as_OT.cmp_lt.
Qed.

Lemma compare_refl (a : string) : String.compare a a = Eq.
Proof. now apply OrderedTypeEx.String_as_OT.cmp_eq. Qed.

Lemma key_lt_irrefl (a : string) : ~ key_lt a a.
Proof.
  unfold key_lt. rewrite compare_refl. discriminate.
Qed.

Lemma compare_flip (a b : string) :
  String.compare a b = Gt <-> String.compare b a = Lt.
Proof.
  rewrite (String.compare_antisym b a).
  destruct (String.compare a b); simpl; split; congruence.
Qed.

(** The three outcomes of a comparison, as facts about the keys. *)
Lemma compare_cases (a b : string) :
  (String.compare a b = Lt /\ key_lt a b) \/
  (String.compare a b = Eq /\ a = b) \/
  (String.compare a b = Gt /\ key_lt b a).
Proof.
  destruct (String.compare a b) eqn:E.
  - right; left. split; [reflexivity | now apply String.compare_eq_iff].
  - left. now split.
  - right; right. split; [reflexivity | now apply compare_flip].
Qed.

Lemma compare_of_lt (a b : string) : key_lt a b -> String.compare a b = Lt.
Proof. exact (fun H => H). Qed.

Lemma compare_of_gt (a b : string) : key_lt b a -> String.compare a b = Gt.
Proof. intros H. now apply compare_flip. Qed.

(** Split on the outcome of comparing [a] with [b], rewriting the comparison
    in the goal. *)
Ltac by_compare a b :=
  let E := fresh "E" in
  let O := fresh "O" in
  destruct (compare_cases a b) as [[E O]|[[E O]|[E O]]];
  rewrite ?E; simpl; rewrite ?E; simpl; try subst.

(** Close a goal whose hypotheses order some keys in a cycle. *)
Ltac key_cycle :=
  solve [
    exfalso;
    match goal with
    | H : key_lt ?a ?a |- _ => exact (key_lt_irrefl a H)
    | H1 : key_lt ?a ?b, H2 : key_lt ?b ?a |- _ =>
        exact (key_lt_irrefl a (key_lt_trans a b a H1 H2))
    | H1 : key_lt ?a ?b, H2 : key_lt ?b ?c, H3 : key_lt ?c ?a |- _ =>
        exact (key_lt_irrefl a
                 (key_lt_trans a c a (key_lt_trans a b c H1 H2) H3))
    | H : ?a <> ?a |- _ => exact (H eq_refl)
    | H : ?a <> ?b, Q : ?a = ?b |- _ => exact (H Q)
    | H : ?a <> ?b, Q : ?b = ?a |- _ => exact (H (eq_sym Q))
    end ].

Lemma assign_lower_bound (x k v : string) (m : t) :
  Forall (key_lt x) (keys m) -> key_lt x k ->
  Forall (key_lt x) (keys (assign k v m)).
Proof.
  intros Hm Hk.
  induction m as [|[k' v'] m IH]; simpl.
  - constructor; [exact Hk | constructor].
  - inversion Hm as [|? ? Hk' Hm']; subst.
    by_compare k k'.
    + constructor; [exact Hk | now constructor].
    + now constructor.
    + constructor; [exact Hk' | now apply IH].
Qed.

Lemma assign_ordered (k v : string) (m : t) :
  ordered m -> ordered (assign k v m).
Proof.
  unfold ordered.
  induction m as [|[k' v'] m IH]; simpl; intros Hm.
  - constructor; constructor.
  - inversion Hm as [|? ? Hs Hall]; subst.
    by_compare k k'.
    + constructor; [exact Hm|].
      constructor; [exact O|].
      eapply Forall_impl; [|exact Hall].
      intros c Hc. now apply key_lt_trans with k'.
    + exact Hm.
    + constructor; [now apply IH | now apply assign_lower_bound].
Qed.

Lemma assign_in (k v : string) (m : t) : In (k, v) (assign k v m).
Proof.
  induction m as [|[k' v'] m IH]; simpl.
  - now left.
  - by_compare k k'.
    + now left.
    + now left.
    + now right.
Qed.

Lemma assign_keeps_key (x k v : string) (m : t) :
  In x (keys m) -> In x (keys (assign k v m)).
Proof.
  induction m as [|[k' v'] m IH]; simpl; intros Hx.
  - contradiction.
  - by_compare k k'.
    + now right.
    + exact Hx.
    + destruct Hx as [Hx|Hx]; [now left | right; now apply IH].
Qed.

(** Assigning twice to one key leaves the second value. *)
Lemma assign_assign (k v1 v2 : string) (m : t) :
  assign k v2 (assign k v1 m) = assign k v2 m.
Proof.
  induction m as [|[k' v'] m IH]; simpl.
  - now rewrite compare_refl.
  - by_compare k k'; now rewrite ?compare_refl, ?IH.
Qed.

(** Rewrite every comparison the hypotheses decide. *)
Ltac settle_compares :=
  repeat match goal with
    | E : String.compare ?a ?b = _ |- context [String.compare ?a ?b] =>
        rewrite E; simpl
    | H : key_lt ?a ?b |- context [String.compare ?a ?b] =>
        rewrite (compare_of_lt a b H); simpl
    | H : key_lt ?b ?a |- context [String.compare ?a ?b] =>
        rewrite (compare_of_gt a b H); simpl
    | |- context [String.compare ?a ?a] =>
        rewrite (compare_refl a); simpl
    end.

(** Assignments to different keys commute. *)
Lemma assign_comm (k1 v1 k2 v2 : string) (m : t) :
  k1 <> k2 ->
  assign k1 v1 (assign k2 v2 m) = assign k2 v2 (assign k1 v1 m).
Proof.
  intros Hne.
  induction m as [|[x w] m IH]; simpl.
  - destruct (compare_cases k1 k2) as [[E O]|[[E O]|[E O]]];
      try key_cycle; settle_compares; reflexivity.
  - destruct (compare_cases k2 x) as [[E2 O2]|[[E2 O2]|[E2 O2]]];
    destruct (compare_cases k1 x) as [[E1 O1]|[[E1 O1]|[E1 O1]]];
    destruct (compare_cases k1 k2) as [[E O]|[[E O]|[E O]]];
    try key_cycle; try (subst; key_cycle);
    settle_compares; rewrite ?IH; reflexivity.
Qed.

Lemma ordered_NoDup (m : t) : ordered m -> NoDup (keys m).
Proof.
  unfold ordered.
  induction (keys m) as [|k l IH]; intros H; constructor;
    inversion H as [|? ? Hs Hall]; subst.
  - intros Hin.
    rewrite Forall_forall in Hall.
    exact (key_lt_irrefl k (Hall k Hin)).
  - now apply IH.
Qed.

(** In an ordered map an entry is the only one with its key. *)
Lemma ordered_sole_entry (k v : string) (m : t) :
  ordered m -> In (k, v) m ->
  exists pre post : t,
    m = (pre ++ (k, v) :: post)%list /\
    Forall (fun e => fst e <> k) (pre ++ post)%list.
Proof.
  intros Hm Hin.
  apply ordered_NoDup in Hm.
  destruct (in_split _ _ Hin) as (pre & post & ->).
  exists pre, post. split; [reflexivity|].
  unfold keys in Hm. rewrite map_app in Hm. simpl in Hm.
  apply NoDup_remove_2 in Hm.
  rewrite Forall_forall. intros [k' v'] He Hk. simpl in Hk. subst k'.
  apply Hm. rewrite <- map_app.
  change k with (fst (k, v')). now apply in_map.
Qed.

End StdMapFacts.

(** ** The monad *)

Lemma bind_exec {St A B} (c : M St A) (k : M St B) (s : St) :
  (c ;; k) s = match exec c s with Some s' => k s' | None => None end.
Proof.
  unfold bind, exec. destruct (c s) as [[a s']|]; reflexivity.
Qed.

Lemma eval_then {St A B} (c : M St A) (k : M St B) (s : St) :
  eval (c ;; k) s = match exec c s with Some s' => eval k s' | None => None end.
Proof.
  unfold eval at 1. rewrite bind_exec. destruct (exec c s); reflexivity.
Qed.

Lemma exec_then {St A B} (c : M St A) (k : M St B) (s : St) :
  exec (c ;; k) s = match exec c s with Some s' => exec k s' | None => None end.
Proof.
  unfold exec at 1. rewrite bind_exec. destruct (exec c s); reflexivity.
Qed.

(** An invariant of every call is an invariant of a sequence of calls. *)
Lemma each_invariant {St A} (f : A -> M St unit) (P : St -> Prop) :
  (forall a s s', exec (f a) s = Some s' -> P s -> P s') ->
  forall l s s', exec (each f l) s = Some s' -> P s -> P s'.
Proof.
  intros Hf l.
  induction l as [|a l IH]; intros s s' Hrun Hs.
  - unfold exec in Hrun. simpl in Hrun. now inversion Hrun; subst.
  - simpl in Hrun. rewrite exec_then in Hrun.
    destruct (exec (f a) s) as [s1|] eqn:E; [|discriminate].
    exact (IH _ _ Hrun (Hf _ _ _ E Hs)).
Qed.

(** ** HttpRequest *)

Lemma method_test (m : Z) :
  ((m >=? HttpRequest.HTTP_METHOD_HEAD)%Z && (m <? HttpRequest.HTTP_METHOD_MAX)%Z)
  = ((0 <=? m)%Z && (m <? 5)%Z).
Proof.
  unfold HttpRequest.HTTP_METHOD_HEAD, HttpRequest.HTTP_METHOD_MAX.
  now rewrite Z.geb_leb.
Qed.

(** [getResult] returns the request line, the header lines, the blank line
    and the body, and leaves the object as it is. *)
Lemma request_getResult (o : HttpRequest.t) :
  HttpRequest.getResult o =
  Some (request_line o ++ header_block (HttpRequest.mHeadField o) ++
        CRLF ++ HttpRequest.mBody o, o).
Proof.
  unfold HttpRequest.getResult, bind, this, pure.
  do 2 f_equal.
  rewrite append_if_nonempty, append_headers_block, method_test.
  unfold request_line, method_token.
  destruct ((0 <=? HttpRequest.mMethod o)%Z && (HttpRequest.mMethod o <? 5)%Z);
    destruct (HttpRequest.mQuery o); cbn [empty negb];
    string_normalize; reflexivity.
Qed.

Lemma request_construct_over (NDEBUG : bool) (indeterminate : Z) :
  HttpRequest.construct_over NDEBUG indeterminate =
  Some (HttpRequest.mk "" "" "" HttpRequest.HTTP_METHOD_GET []).
Proof.
  unfold HttpRequest.construct_over, HttpRequest.setMethod, exec, bind,
    update, this, assert.
  simpl. now rewrite orb_true_r.
Qed.

Lemma request_call_ordered (NDEBUG : bool) (c : HttpRequest.setter)
    (o o' : HttpRequest.t) :
  exec (HttpRequest.call NDEBUG c) o = Some o' ->
  StdMap.ordered (HttpRequest.mHeadField o) ->
  StdMap.ordered (HttpRequest.mHeadField o').
Proof.
  intros Hrun Hm.
  destruct c; unfold exec in Hrun; simpl in Hrun.
  1: { unfold HttpRequest.setMethod, bind, update, this, assert in Hrun.
       simpl in Hrun.
       destruct (NDEBUG || _); inversion Hrun; subst; exact Hm. }
  all: inversion Hrun; subst; simpl; try exact Hm.
  all: now apply StdMapFacts.assign_ordered.
Qed.

Lemma request_after_ordered (NDEBUG : bool) (cs : list HttpRequest.setter)
    (o : HttpRequest.t) :
  HttpRequest.after NDEBUG cs = Some o ->
  StdMap.ordered (HttpRequest.mHeadField o).
Proof.
  unfold HttpRequest.after, HttpRequest.construct.
  rewrite request_construct_over. intros Hrun.
  refine (each_invariant (HttpRequest.call NDEBUG)
            (fun o => StdMap.ordered (HttpRequest.mHeadField o))
            (request_call_ordered NDEBUG) cs _ _ Hrun _).
  constructor.
Qed.

Lemma request_addHeadValue_all (NDEBUG : bool) (l : list (string * string))
    (o : HttpRequest.t) :
  exec (each (HttpRequest.call NDEBUG) (request_headers l)) o =
  Some (HttpRequest.with_mHeadField (assign_all l (HttpRequest.mHeadField o)) o).
Proof.
  revert o.
  induction l as [|[k v] l IH]; intros o.
  - now destruct o.
  - unfold request_headers. simpl map. simpl each.
    rewrite exec_then. unfold exec at 1. simpl.
    fold (request_headers l). now rewrite IH.
Qed.

(** ** HttpResponse *)

Lemma response_getResult (o : HttpResponse.t) :
  HttpResponse.getResult o =
  Some (status_line o ++ header_block (HttpResponse.mHeadField o) ++
        CRLF ++ HttpResponse.mBody o, o).
Proof.
  unfold HttpResponse.getResult, HttpResponse.toStatusString, bind, this, pure.
  do 2 f_equal.
  rewrite append_if_nonempty, append_headers_block.
  unfold status_line. string_normalize. reflexivity.
Qed.

Lemma response_construct (state : Z) (isKeepAlive : bool) :
  HttpResponse.construct state isKeepAlive =
  Some (HttpResponse.mk state
          [("Connection", if isKeepAlive then "Keep-Alive" else "Close")] "").
Proof.
  now destruct isKeepAlive.
Qed.

Lemma response_call_runs (c : HttpResponse.setter) (o : HttpResponse.t) :
  exists o', exec (HttpResponse.call c) o = Some o'.
Proof.
  destruct c; eexists; reflexivity.
Qed.

(** What every call keeps: the map ordered, and a [Connection] entry in it. *)
Lemma response_call_invariant (c : HttpResponse.setter) (o o' : HttpResponse.t) :
  exec (HttpResponse.call c) o = Some o' ->
  StdMap.ordered (HttpResponse.mHeadField o) /\
  In "Connection" (StdMap.keys (HttpResponse.mHeadField o)) ->
  StdMap.ordered (HttpResponse.mHeadField o') /\
  In "Connection" (StdMap.keys (HttpResponse.mHeadField o')).
Proof.
  intros Hrun [Hm Hc].
  destruct c; unfold exec in Hrun; simpl in Hrun; inversion Hrun; subst; simpl.
  1: now split.
  all: split; [now apply StdMapFacts.assign_ordered
              | now apply StdMapFacts.assign_keeps_key].
Qed.

Lemma each_runs {St A} (f : A -> M St unit) :
  (forall a s, exists s', exec (f a) s = Some s') ->
  forall l s, exists s', exec (each f l) s = Some s'.
Proof.
  intros Hf l.
  induction l as [|a l IH]; intros s.
  - now exists s.
  - simpl each. rewrite exec_then.
    destruct (Hf a s) as [s1 ->]. apply IH.
Qed.

Lemma response_after (state : Z) (isKeepAlive : bool)
    (cs : list HttpResponse.setter) :
  exists o,
    HttpResponse.after state isKeepAlive cs = Some o /\
    StdMap.ordered (HttpResponse.mHeadField o) /\
    In "Connection" (StdMap.keys (HttpResponse.mHeadField o)).
Proof.
  unfold HttpResponse.after. rewrite response_construct.
  destruct (each_runs HttpResponse.call response_call_runs cs
              (HttpResponse.mk state
                 [("Connection", if isKeepAlive then "Keep-Alive" else "Close")] ""))
    as [o Ho].
  exists o. split; [exact Ho|].
  refine (each_invariant HttpResponse.call
            (fun o => StdMap.ordered (HttpResponse.mHeadField o) /\
                      In "Connection" (StdMap.keys (HttpResponse.mHeadField o)))
            response_call_invariant cs _ _ Ho _).
  split.
  - repeat constructor.
  - now left.
Qed.

Lemma response_addHeadValue_all (l : list (string * string))
    (o : HttpResponse.t) :
  exec (each HttpResponse.call (response_headers l)) o =
  Some (HttpResponse.with_mHeadField (assign_all l (HttpResponse.mHeadField o)) o).
Proof.
  revert o.
  induction l as [|[k v] l IH]; intros o.
  - now destruct o.
  - unfold response_headers. simpl map. simpl each.
    rewrite exec_then. unfold exec at 1. simpl.
    fold (response_headers l). now rewrite IH.
Qed.

(** ** Insertion order *)

Lemma assign_all_ordered (l : list (string * string)) (m : StdMap.t) :
  StdMap.ordered m -> StdMap.ordered (assign_all l m).
Proof.
  revert m.
  induction l as [|[k v] l IH]; intros m Hm; simpl.
  - exact Hm.
  - apply IH. now apply StdMapFacts.assign_ordered.
Qed.

Lemma assign_all_permutation (l l' : list (string * string)) :
  Permutation l l' -> NoDup (map fst l) ->
  forall m, assign_all l m = assign_all l' m.
Proof.
  induction 1 as [|x l l' Hp IH|x y l|l l' l'' Hp1 IH1 Hp2 IH2];
    intros Hnd m.
  - reflexivity.
  - simpl. apply IH. now inversion Hnd.
  - simpl. f_equal. apply StdMapFacts.assign_comm.
    simpl in Hnd. inversion Hnd as [|? ? Hy _]; subst.
    intros E. apply Hy. now left.
  - rewrite IH1 by exact Hnd. apply IH2.
    apply (Permutation_NoDup (Permutation_map fst Hp1) Hnd).
Qed.

(** ** The status table *)

(** A status that is no case label of the switch takes its default arm. *)
Lemma switch_default (st : Z) :
  ~ In st HttpResponse.mapped ->
  HttpResponse.toStatusString_switch st = "<unknown-status>".
Proof.
  intros Hst.
  assert (Hb : existsb (Z.eqb st) HttpResponse.mapped = false).
  { destruct (existsb (Z.eqb st) HttpResponse.mapped) eqn:E; [|reflexivity].
    exfalso. apply Hst.
    apply existsb_exists in E. destruct E as (x & Hx & Hxe).
    apply Z.eqb_eq in Hxe. now subst. }
  clear Hst.
  destruct st as [|p|p]; try reflexivity.
  do 10 (destruct p as [p|p|]; try reflexivity; try discriminate Hb).
Qed.

(** Every case label has a phrase of its own. *)
Lemma switch_mapped (st : Z) :
  In st HttpResponse.mapped ->
  HttpResponse.toStatusString_switch st <> "<unknown-status>".
Proof.
  intros Hst.
  repeat (destruct Hst as [<-|Hst]; [discriminate|]).
  contradiction.
Qed.

(** Below 2^31 the cast to [int] keeps the value, and [std::to_string]
    prints it without a sign. *)
Lemma to_string_int_small (st : Z) :
  0 <= st < 2 ^ 31 ->
  to_string_int (static_cast_int st) = decimal st.
Proof.
  intros Hst.
  unfold static_cast_int.
  change (2 ^ 32) with 4294967296 in *.
  change (2 ^ 31) with 2147483648 in *.
  rewrite Z.mod_small by lia.
  destruct (Z.ltb_spec st 2147483648) as [_|Hge]; [|lia].
  destruct st as [|p|p]; [reflexivity | reflexivity | lia].
Qed.

(** ** HttpQueryParameter *)

Lemma query_add (k v : string) (q : HttpQueryParameter.t) :
  exec (HttpQueryParameter.add
          (HttpQueryParameter.Value k) (HttpQueryParameter.Value v)) q =
  Some (HttpQueryParameter.mk
          (if empty (HttpQueryParameter.mParameter q)
           then query_pair (k, v)
           else HttpQueryParameter.mParameter q ++ "&" ++ query_pair (k, v))).
Proof.
  destruct q as [acc].
  unfold HttpQueryParameter.add, HttpQueryParameter.read, exec, bind, this,
    update, pure, query_pair.
  destruct acc; simpl; do 2 f_equal; string_normalize; reflexivity.
Qed.

Lemma query_pair_nonempty (p : string * string) : empty (query_pair p) = false.
Proof.
  destruct p as [[|c k] v]; reflexivity.
Qed.

Lemma concat_joined (sep a b : string) (l : list string) :
  String.concat sep ((a ++ sep ++ b) :: l) = a ++ sep ++ String.concat sep (b :: l).
Proof.
  destruct l as [|y l]; simpl; [reflexivity|].
  now rewrite !append_assoc.
Qed.

(** Once the accumulator is non-empty every further pair is preceded by a
    separator. *)
Lemma query_add_more (l : list (string * string)) (q : HttpQueryParameter.t) :
  empty (HttpQueryParameter.mParameter q) = false ->
  exec (each add_pair l) q =
  Some (HttpQueryParameter.mk
          (String.concat "&" (HttpQueryParameter.mParameter q :: map query_pair l))).
Proof.
  revert q.
  induction l as [|[k v] l IH]; intros [acc] Hacc; simpl in Hacc.
  - reflexivity.
  - simpl each. rewrite exec_then. unfold add_pair at 1.
    rewrite query_add. simpl fst. simpl snd.
    cbn [HttpQueryParameter.mParameter]. rewrite Hacc.
    rewrite IH.
    + cbn [HttpQueryParameter.mParameter map].
      now rewrite concat_joined.
    + cbn [HttpQueryParameter.mParameter].
      destruct acc; [discriminate | reflexivity].
Qed.

Lemma query_adds (l : list (string * string)) (q : HttpQueryParameter.t) :
  exec (each add_pair l) q =
  Some (HttpQueryParameter.mk
          (String.concat "&"
             ((if empty (HttpQueryParameter.mParameter q) then []
               else [HttpQueryParameter.mParameter q]) ++
              map query_pair l)%list)).
Proof.
  destruct (empty (HttpQueryParameter.mParameter q)) eqn:Hq.
  - destruct l as [|[k v] l].
    + destruct q as [acc]. simpl in Hq. apply empty_spec in Hq. now subst.
    + simpl each. rewrite exec_then. unfold add_pair at 1.
      rewrite query_add, Hq. simpl fst. simpl snd.
      rewrite query_add_more by apply query_pair_nonempty.
      reflexivity.
  - now rewrite query_add_more.
Qed.

(** C8. [add] takes its arguments by reference and reads them after it has
    begun to append. When an argument is the object's own [getResult()] the
    pair it appends is not [key=value] of the strings that were passed:
    after [add("a","1")], the call [add("prev", getResult())] leaves
    [a=1&prev=a=1&prev=] where [k1=v1&k2=v2] is [a=1&prev=a=1], and on a
    fresh object [add(getResult(), getResult())] leaves [==] where the pair
    of two empty strings is [=]. With arguments that are strings of the
    caller's own, [getResult] returns [k1=v1&...&kn=vn], the pairs verbatim
    in call order, for every sequence of calls; [add("a","1")] and
    [add("b","2")] give [a=1&b=2]. *)
Theorem query_add_reads_arguments_late (l : list (string * string)) :
  eval (HttpQueryParameter.add (HttpQueryParameter.Value "a")
                               (HttpQueryParameter.Value "1") ;;
        HttpQueryParameter.add (HttpQueryParameter.Value "prev")
                               HttpQueryParameter.Result ;;
        HttpQueryParameter.getResult)
       HttpQueryParameter.construct
  = Some "a=1&prev=a=1&prev=" /\
  eval (HttpQueryParameter.add HttpQueryParameter.Result
                               HttpQueryParameter.Result ;;
        HttpQueryParameter.getResult)
       HttpQueryParameter.construct
  = Some "==" /\
  eval (each add_pair l ;; HttpQueryParameter.getResult)
       HttpQueryParameter.construct
  = Some (String.concat "&" (map (fun p => fst p ++ "=" ++ snd p) l)) /\
  eval (HttpQueryParameter.add (HttpQueryParameter.Value "a")
                               (HttpQueryParameter.Value "1") ;;
        HttpQueryParameter.add (HttpQueryParameter.Value "b")
                               (HttpQueryParameter.Value "2") ;;
        HttpQueryParameter.getResult)
       HttpQueryParameter.construct
  = Some "a=1&b=2".
Proof.
  split; [reflexivity|]. split; [reflexivity|]. split; [|reflexivity].
  rewrite eval_then, query_adds. reflexivity.
Qed.

(** ** Calls and what they return *)

Lemma request_eval_getResult (o : HttpRequest.t) :
  eval HttpRequest.getResult o =
  Some (request_line o ++ header_block (HttpRequest.mHeadField o) ++
        CRLF ++ HttpRequest.mBody o).
Proof.
  unfold eval. now rewrite request_getResult.
Qed.

Lemma response_eval_getResult (o : HttpResponse.t) :
  eval HttpResponse.getResult o =
  Some (status_line o ++ header_block (HttpResponse.mHeadField o) ++
        CRLF ++ HttpResponse.mBody o).
Proof.
  unfold eval. now rewrite response_getResult.
Qed.

Lemma twice_same {St} (getResult : M St string) (x : string) (s : St) :
  getResult s = Some (x, s) -> twice getResult s = Some ((x, x), s).
Proof.
  intros H. unfold twice, bind. now rewrite H, H.
Qed.

(** C1. With assertions compiled in, [setMethod(HTTP_METHOD_HEAD)] fails the
    assertion of [setMethod] and aborts, although [HEAD] is one of the five
    methods and [getResult] has a token for it; the other four methods pass
    and are stored. With [NDEBUG] the call stores [HEAD]. *)
Theorem setMethod_assertion_rejects_HEAD (o : HttpRequest.t) :
  HttpRequest.setMethod false HttpRequest.HTTP_METHOD_HEAD o = None /\
  exec (HttpRequest.setMethod false HttpRequest.HTTP_METHOD_GET) o =
    Some (HttpRequest.with_mMethod HttpRequest.HTTP_METHOD_GET o) /\
  exec (HttpRequest.setMethod false HttpRequest.HTTP_METHOD_POST) o =
    Some (HttpRequest.with_mMethod HttpRequest.HTTP_METHOD_POST o) /\
  exec (HttpRequest.setMethod false HttpRequest.HTTP_METHOD_PUT) o =
    Some (HttpRequest.with_mMethod HttpRequest.HTTP_METHOD_PUT o) /\
  exec (HttpRequest.setMethod false HttpRequest.HTTP_METHOD_DELETE) o =
    Some (HttpRequest.with_mMethod HttpRequest.HTTP_METHOD_DELETE o) /\
  exec (HttpRequest.setMethod true HttpRequest.HTTP_METHOD_HEAD) o =
    Some (HttpRequest.with_mMethod HttpRequest.HTTP_METHOD_HEAD o) /\
  eval HttpRequest.getResult
       (HttpRequest.with_mMethod HttpRequest.HTTP_METHOD_HEAD
          (HttpRequest.members HttpRequest.HTTP_METHOD_MAX))
  = Some ("HEAD  HTTP/1.1" ++ CRLF ++ CRLF).
Proof.
  repeat split.
Qed.

(** C5. A freshly constructed HttpRequest, no setter called, serializes to
    [GET  HTTP/1.1 CRLF CRLF]: the token GET, a space, the empty url, a
    space, the suffix, no header line and no body. The value [mMethod] held
    before the constructor body ran does not matter. *)
Theorem default_request_serialization (NDEBUG : bool) (indeterminate : Z) :
  HttpRequest.serialized NDEBUG [] = Some ("GET  HTTP/1.1" ++ CRLF ++ CRLF) /\
  exists o,
    HttpRequest.construct_over NDEBUG indeterminate = Some o /\
    eval HttpRequest.getResult o = Some ("GET  HTTP/1.1" ++ CRLF ++ CRLF).
Proof.
  split.
  - unfold HttpRequest.serialized, HttpRequest.construct.
    now rewrite request_construct_over.
  - rewrite request_construct_over. eexists. split; reflexivity.
Qed.

(** C6. An HttpResponse constructed with the default arguments ([status::ok],
    keep-alive) and not touched further serializes to
    [HTTP/1.1 200 OK CRLF Connection: Keep-Alive CRLF CRLF]; constructed
    with [isKeepAlive = false] its one header is [Connection: Close]. *)
Theorem default_response_serialization (state : Z) :
  (exists o,
     HttpResponse.construct_default = Some o /\
     eval HttpResponse.getResult o =
       Some ("HTTP/1.1 200 OK" ++ CRLF ++
             "Connection: Keep-Alive" ++ CRLF ++ CRLF)) /\
  HttpResponse.serialized HttpResponse.status.ok true [] =
    Some ("HTTP/1.1 200 OK" ++ CRLF ++ "Connection: Keep-Alive" ++ CRLF ++ CRLF) /\
  HttpResponse.serialized HttpResponse.status.ok false [] =
    Some ("HTTP/1.1 200 OK" ++ CRLF ++ "Connection: Close" ++ CRLF ++ CRLF) /\
  (exists o,
     HttpResponse.construct state false = Some o /\
     HttpResponse.mHeadField o = [("Connection", "Close")]) /\
  (exists o,
     HttpResponse.construct state true = Some o /\
     HttpResponse.mHeadField o = [("Connection", "Keep-Alive")]).
Proof.
  repeat split.
  - eexists. split; reflexivity.
  - eexists. split; reflexivity.
  - eexists. split; reflexivity.
Qed.

(** C9. [getResult] called twice in a row returns the same string both
    times and leaves the object (accumulator; method, url, query, headers,
    body; status, headers, body) as it was, for every state of an
    HttpQueryParameter, an HttpRequest and an HttpResponse. *)
Theorem getResult_repeatable
    (q : HttpQueryParameter.t) (o : HttpRequest.t) (r : HttpResponse.t) :
  (exists x,
     HttpQueryParameter.getResult q = Some (x, q) /\
     twice HttpQueryParameter.getResult q = Some ((x, x), q)) /\
  (exists x,
     HttpRequest.getResult o = Some (x, o) /\
     twice HttpRequest.getResult o = Some ((x, x), o)) /\
  (exists x,
     HttpResponse.getResult r = Some (x, r) /\
     twice HttpResponse.getResult r = Some ((x, x), r)).
Proof.
  repeat split.
  - exists (HttpQueryParameter.mParameter q). split; reflexivity.
  - eexists. split; [apply request_getResult|].
    apply twice_same, request_getResult.
  - eexists. split; [apply response_getResult|].
    apply twice_same, response_getResult.
Qed.

(** C7. 4294967295 is a value of [status], an enumeration over [unsigned],
    and no case label. A response constructed with it serializes without
    failing and with the placeholder phrase, but its status line reads
    [HTTP/1.1 -1 <unknown-status>]: [getResult] prints the status through a
    cast to [int], so the numeric code does not appear verbatim. *)
Theorem unmapped_status_wraps_negative :
  unsigned_range 4294967295 /\
  ~ In 4294967295 HttpResponse.mapped /\
  HttpResponse.serialized 4294967295 true [] =
    Some ("HTTP/1.1 -1 <unknown-status>" ++ CRLF ++
          "Connection: Keep-Alive" ++ CRLF ++ CRLF) /\
  option_map (shows_unknown_status 4294967295)
             (HttpResponse.serialized 4294967295 true [])
  = Some false.
Proof.
  split; [|split; [|split]].
  - unfold unsigned_range. change (2 ^ 32) with 4294967296. lia.
  - intros H.
    repeat (destruct H as [H|H]; [discriminate H|]).
    exact H.
  - reflexivity.
  - reflexivity.
Qed.

(** X19. For every status below 2^31 that is no case label of the switch
    (999, say), whatever the headers and the body, [getResult] returns: the
    status line is [HTTP/1.1], the code verbatim in decimal, a space and the
    placeholder [<unknown-status>]; the headers, the blank line and the body
    follow. *)
Theorem unmapped_status_placeholder (st : Z) (m : StdMap.t) (body : string) :
  0 <= st < 2 ^ 31 ->
  ~ In st HttpResponse.mapped ->
  eval HttpResponse.getResult (HttpResponse.mk st m body) =
    Some ("HTTP/1.1 " ++ decimal st ++ " " ++ "<unknown-status>" ++ CRLF ++
          header_block m ++ CRLF ++ body) /\
  option_map (shows_unknown_status st)
             (eval HttpResponse.getResult (HttpResponse.mk st m body))
  = Some true.
Proof.
  intros Hst Hun.
  rewrite response_eval_getResult.
  unfold status_line. cbn [HttpResponse.mStatus HttpResponse.mHeadField
                           HttpResponse.mBody].
  rewrite (to_string_int_small st Hst), (switch_default st Hun).
  split.
  - string_normalize. reflexivity.
  - cbn [option_map]. f_equal. unfold shows_unknown_status.
    match goal with
    | |- String.prefix ?p ?out = true =>
        replace out with (p ++ (header_block m ++ CRLF ++ body))
          by (string_normalize; reflexivity)
    end.
    apply prefix_append.
Qed.

Lemma unmapped_status_placeholder_witness :
  eval HttpResponse.getResult
       (HttpResponse.mk 999 [("Connection", "Keep-Alive")] "") =
    Some ("HTTP/1.1 " ++ decimal 999 ++ " " ++ "<unknown-status>" ++ CRLF ++
          header_block [("Connection", "Keep-Alive")] ++ CRLF ++ "") /\
  option_map (shows_unknown_status 999)
             (eval HttpResponse.getResult
                (HttpResponse.mk 999 [("Connection", "Keep-Alive")] ""))
  = Some true.
Proof.
  apply (unmapped_status_placeholder 999 [("Connection", "Keep-Alive")] "").
  - change (2 ^ 31) with 2147483648. lia.
  - intros H.
    repeat (destruct H as [H|H]; [discriminate H|]).
    exact H.
Defined.

(** ** Reading a message back *)

Lemma lines_line (s rest : string) :
  has_crlf s = false -> lines (s ++ CRLF ++ rest) = s :: lines rest.
Proof.
  induction s as [|c s IH]; intros Hs.
  - reflexivity.
  - simpl in Hs. apply orb_false_iff in Hs. destruct Hs as [Hc Hs].
    specialize (IH Hs).
    destruct s as [|d s].
    + cbn [String.append] in IH |- *. unfold CRLF in IH |- *.
      cbn [String.append] in IH |- *.
      change (lines (String c (String "013" (String "010" rest))))
        with (if is_CR c && is_LF "013"
              then EmptyString :: lines (String "010" rest)
              else match lines (String "013" (String "010" rest)) with
                   | l :: ls => String c l :: ls
                   | [] => [String c EmptyString]
                   end).
      replace (is_CR c && is_LF "013") with false
        by (now rewrite andb_false_r).
      now rewrite IH.
    + cbn [String.append] in IH |- *.
      change (lines (String c (String d (s ++ CRLF ++ rest))))
        with (if is_CR c && is_LF d
              then EmptyString :: lines (s ++ CRLF ++ rest)
              else match lines (String d (s ++ CRLF ++ rest)) with
                   | l :: ls => String c l :: ls
                   | [] => [String c EmptyString]
                   end).
      simpl in Hc. rewrite Hc. now rewrite IH.
Qed.

Lemma lines_inhabited (s : string) : lines s <> [].
Proof.
  assert (H : lines s <> [] /\ forall c, lines (String c s) <> []).
  { induction s as [|d s [IH1 IH2]].
    - split; [discriminate | intros c; discriminate].
    - split; [apply IH2|].
      intros c.
      change (lines (String c (String d s)))
        with (if is_CR c && is_LF d
              then EmptyString :: lines s
              else match lines (String d s) with
                   | l :: ls => String c l :: ls
                   | [] => [String c EmptyString]
                   end).
      destruct (is_CR c && is_LF d); [discriminate|].
      destruct (lines (String d s)); discriminate. }
  apply H.
Qed.

Lemma concat_cons_char (c : ascii) (l : string) (ls : list string) :
  String.concat CRLF (String c l :: ls) = String c (String.concat CRLF (l :: ls)).
Proof.
  destruct ls; reflexivity.
Qed.

(** Splitting into lines loses nothing: the lines joined by CRLF are the
    string. *)
Lemma concat_lines (s : string) : String.concat CRLF (lines s) = s.
Proof.
  assert (H : String.concat CRLF (lines s) = s /\
              forall c, String.concat CRLF (lines (String c s)) = String c s).
  { induction s as [|d s [IH1 IH2]].
    - split; [reflexivity | intros c; reflexivity].
    - split; [apply IH2|].
      intros c.
      change (lines (String c (String d s)))
        with (if is_CR c && is_LF d
              then EmptyString :: lines s
              else match lines (String d s) with
                   | l :: ls => String c l :: ls
                   | [] => [String c EmptyString]
                   end).
      destruct (is_CR c && is_LF d) eqn:E.
      + apply andb_true_iff in E. destruct E as [Ec Ed].
        apply Ascii.eqb_eq in Ec. apply Ascii.eqb_eq in Ed. subst c d.
        pose proof (lines_inhabited s) as Hne.
        destruct (lines s) as [|l ls] eqn:El; [now elim Hne|].
        change (String.concat CRLF (EmptyString :: l :: ls))
          with (CRLF ++ String.concat CRLF (l :: ls)).
        now rewrite IH1.
      + specialize (IH2 d).
        destruct (lines (String d s)) as [|l ls] eqn:El.
        * now elim (lines_inhabited (String d s)).
        * rewrite concat_cons_char. now rewrite IH2. }
  apply H.
Qed.

Lemma has_crlf_app (a b : string) :
  starts_with_LF b = false ->
  has_crlf (a ++ b) = has_crlf a || has_crlf b.
Proof.
  intros Hb.
  induction a as [|c a IH]; [reflexivity|].
  cbn [String.append has_crlf]. rewrite IH.
  destruct a as [|d a]; cbn [String.append starts_with_LF].
  - rewrite Hb, andb_false_r. reflexivity.
  - now rewrite orb_assoc.
Qed.

Lemma header_text_nonempty (k v : string) : empty (header_text k v) = false.
Proof.
  destruct k; reflexivity.
Qed.

Lemma header_text_one_line (k v : string) :
  has_crlf k = false -> has_crlf v = false ->
  has_crlf (header_text k v) = false.
Proof.
  intros Hk Hv. unfold header_text.
  rewrite has_crlf_app by reflexivity.
  rewrite Hk. cbn. exact Hv.
Qed.

Lemma safe_headers_entry (k v : string) (m : StdMap.t) :
  safe_headers m = true -> In (k, v) m ->
  has_colon k = false /\ has_crlf k = false /\ has_crlf v = false.
Proof.
  intros Hm Hin. unfold safe_headers in Hm.
  rewrite forallb_forall in Hm. specialize (Hm (k, v) Hin).
  unfold safe_field, safe_value in Hm. simpl in Hm.
  rewrite !andb_true_iff, !negb_true_iff in Hm. tauto.
Qed.

Lemma safe_headers_assign (k v : string) (m : StdMap.t) :
  safe_field k = true -> safe_value v = true ->
  safe_headers m = true -> safe_headers (StdMap.assign k v m) = true.
Proof.
  intros Hk Hv.
  induction m as [|[k' v'] m IH]; simpl; intros Hm.
  - now rewrite Hk, Hv.
  - apply andb_true_iff in Hm. destruct Hm as [He Hm].
    destruct (StdMapFacts.compare_cases k k') as [[E _]|[[E Q]|[E _]]];
      rewrite E; simpl.
    + now rewrite Hk, Hv, He, Hm.
    + subst k'. now rewrite Hk, Hv, Hm.
    + now rewrite He, IH.
Qed.

(** The lines of the header block and of what follows it. *)
Lemma header_block_lines (m : StdMap.t) (body : string) :
  safe_headers m = true ->
  lines (header_block m ++ CRLF ++ body) =
  (map (fun e => header_text (fst e) (snd e)) m ++ EmptyString :: lines body)%list.
Proof.
  induction m as [|[k v] m IH]; intros Hm.
  - exact (lines_line EmptyString body eq_refl).
  - destruct (safe_headers_entry k v ((k, v) :: m) Hm (or_introl eq_refl))
      as (_ & Hk & Hv).
    simpl in Hm. apply andb_true_iff in Hm. destruct Hm as [_ Hm].
    cbn [header_block map fst snd app].
    replace ((header_line k v ++ header_block m) ++ CRLF ++ body)
      with (header_text k v ++ CRLF ++ (header_block m ++ CRLF ++ body)).
    + rewrite lines_line by now apply header_text_one_line.
      now rewrite IH.
    + unfold header_line, header_text. string_normalize. reflexivity.
Qed.

Lemma until_blank_headers (m : StdMap.t) (rest : list string) :
  until_blank
    (map (fun e => header_text (fst e) (snd e)) m ++ EmptyString :: rest)%list
  = map (fun e => header_text (fst e) (snd e)) m.
Proof.
  induction m as [|[k v] m IH]; [reflexivity|].
  cbn [map app until_blank fst snd].
  now rewrite header_text_nonempty, IH.
Qed.

Lemma after_blank_headers (m : StdMap.t) (rest : list string) :
  after_blank
    (map (fun e => header_text (fst e) (snd e)) m ++ EmptyString :: rest)%list
  = Some rest.
Proof.
  induction m as [|[k v] m IH]; [reflexivity|].
  cbn [map app after_blank fst snd].
  now rewrite header_text_nonempty, IH.
Qed.

(** A message whose start line and headers stay on their lines reads back
    as it was written: one header line per entry of the map, and the body. *)
Lemma message_read_back (start : string) (m : StdMap.t) (body : string) :
  has_crlf start = false -> safe_headers m = true ->
  header_lines ((start ++ CRLF) ++ header_block m ++ CRLF ++ body) =
    map (fun e => header_text (fst e) (snd e)) m /\
  body_bytes ((start ++ CRLF) ++ header_block m ++ CRLF ++ body) = Some body.
Proof.
  intros Hs Hm.
  unfold header_lines, body_bytes.
  rewrite append_assoc, (lines_line start _ Hs), (header_block_lines m body Hm).
  cbn [tl].
  rewrite until_blank_headers, after_blank_headers.
  split; [reflexivity|].
  cbn [option_map]. now rewrite concat_lines.
Qed.

(** Field names without a colon are told apart by the text before the first
    colon of a line. *)
Lemma prefix_field (k k' v : string) :
  has_colon k = false -> has_colon k' = false ->
  String.prefix (k ++ ": ") (header_text k' v) = true -> k = k'.
Proof.
  unfold header_text. revert k'.
  induction k as [|a k IH]; intros [|c k'] Hk Hk' Hp;
    cbn [String.append String.prefix has_colon] in Hp, Hk, Hk'.
  - reflexivity.
  - exfalso.
    destruct (ascii_dec ":" c) as [<-|_]; [|discriminate].
    discriminate Hk'.
  - exfalso.
    destruct (ascii_dec a ":") as [->|_]; [|discriminate].
    discriminate Hk.
  - apply orb_false_iff in Hk. apply orb_false_iff in Hk'.
    destruct (ascii_dec a c) as [<-|_]; [|discriminate].
    f_equal. now apply (IH k').
Qed.

Lemma prefix_own_field (k v : string) :
  String.prefix (k ++ ": ") (header_text k v) = true.
Proof.
  unfold header_text.
  replace (k ++ ": " ++ v) with ((k ++ ": ") ++ v)
    by (string_normalize; reflexivity).
  apply prefix_append.
Qed.

Lemma lines_of_other_fields (k : string) (l : StdMap.t) :
  has_colon k = false -> safe_headers l = true ->
  Forall (fun e => fst e <> k) l ->
  filter (String.prefix (k ++ ": "))
         (map (fun e => header_text (fst e) (snd e)) l) = [].
Proof.
  intros Hk.
  induction l as [|[k' v'] l IH]; intros Hl Hne; [reflexivity|].
  destruct (safe_headers_entry k' v' _ Hl (or_introl eq_refl)) as (Hk' & _).
  simpl in Hl. apply andb_true_iff in Hl. destruct Hl as [_ Hl].
  inversion Hne as [|? ? Hhd Htl]; subst. simpl in Hhd.
  cbn [map filter fst snd].
  destruct (String.prefix (k ++ ": ") (header_text k' v')) eqn:E.
  - exfalso. apply Hhd. symmetry. exact (prefix_field k k' v' Hk Hk' E).
  - now apply IH.
Qed.

Lemma safe_headers_app (a b : StdMap.t) :
  safe_headers (a ++ b)%list = safe_headers a && safe_headers b.
Proof.
  unfold safe_headers. apply forallb_app.
Qed.

(** In a message read back, the field of an entry of the ordered map has
    exactly one header line, the one that carries the entry's value. *)
Lemma message_lines_for (start : string) (m : StdMap.t) (body k v : string) :
  has_crlf start = false -> safe_headers m = true ->
  StdMap.ordered m -> In (k, v) m ->
  lines_for k ((start ++ CRLF) ++ header_block m ++ CRLF ++ body) =
  [header_text k v].
Proof.
  intros Hs Hm Hord Hin.
  unfold lines_for.
  destruct (message_read_back start m body Hs Hm) as [-> _].
  destruct (safe_headers_entry k v m Hm Hin) as (Hk & _).
  destruct (StdMapFacts.ordered_sole_entry k v m Hord Hin)
    as (pre & post & -> & Hfresh).
  rewrite safe_headers_app in Hm. apply andb_true_iff in Hm.
  destruct Hm as [Hpre Hpost].
  simpl in Hpost. apply andb_true_iff in Hpost. destruct Hpost as [_ Hpost].
  apply Forall_app in Hfresh. destruct Hfresh as [Fpre Fpost].
  rewrite map_app, filter_app. cbn [map filter fst snd].
  rewrite prefix_own_field.
  rewrite (lines_of_other_fields k pre Hk Hpre Fpre).
  now rewrite (lines_of_other_fields k post Hk Hpost Fpost).
Qed.

(** *** The start lines *)

Lemma method_token_one_line (m : Z) :
  has_crlf (method_token m) = false /\ starts_with_LF (method_token m) = false.
Proof.
  unfold method_token.
  destruct ((0 <=? m)%Z && (m <? 5)%Z) eqn:E; [|split; reflexivity].
  apply andb_true_iff in E. destruct E as [E1 E2].
  apply Z.leb_le in E1. apply Z.ltb_lt in E2.
  assert (H : m = 0 \/ m = 1 \/ m = 2 \/ m = 3 \/ m = 4) by lia.
  destruct H as [->|[->|[->|[->| ->]]]]; split; reflexivity.
Qed.

Lemma request_line_start (o : HttpRequest.t) :
  request_line o = request_start o ++ CRLF.
Proof.
  unfold request_line, request_start. string_normalize. reflexivity.
Qed.

Lemma has_crlf_cons (c : ascii) (s : string) :
  is_CR c = false -> has_crlf (String c s) = has_crlf s.
Proof.
  intros Hc. cbn [has_crlf]. now rewrite Hc.
Qed.

Lemma request_start_one_line (o : HttpRequest.t) :
  has_crlf (HttpRequest.mUrl o) = false ->
  has_crlf (HttpRequest.mQuery o) = false ->
  has_crlf (request_start o) = false.
Proof.
  intros Hu Hq. unfold request_start.
  destruct (method_token_one_line (HttpRequest.mMethod o)) as [Ht _].
  rewrite has_crlf_app by reflexivity. rewrite Ht. cbn [orb].
  cbn [String.append]. rewrite has_crlf_cons by reflexivity.
  destruct (HttpRequest.mQuery o) as [|c q]; cbn [empty String.append].
  - rewrite has_crlf_app by reflexivity. now rewrite Hu.
  - rewrite has_crlf_app by reflexivity. rewrite Hu. cbn [orb].
    rewrite has_crlf_cons by reflexivity.
    change (String c (q ++ " HTTP/1.1")) with (String c q ++ " HTTP/1.1").
    rewrite has_crlf_app by reflexivity. now rewrite Hq.
Qed.

Lemma digits_one_line (d : Decimal.uint) :
  has_crlf (NilEmpty.string_of_uint d) = false /\
  starts_with_LF (NilEmpty.string_of_uint d) = false.
Proof.
  induction d as [|d [IH _]|d [IH _]|d [IH _]|d [IH _]|d [IH _]
                  |d [IH _]|d [IH _]|d [IH _]|d [IH _]|d [IH _]];
    split; try reflexivity; cbn [NilEmpty.string_of_uint has_crlf];
    rewrite IH; reflexivity.
Qed.

Lemma to_string_int_one_line (z : Z) :
  has_crlf (to_string_int z) = false.
Proof.
  unfold to_string_int, NilEmpty.string_of_int.
  destruct (Z.to_int z) as [d|d].
  - apply digits_one_line.
  - cbn [has_crlf]. now destruct (digits_one_line d) as [-> _].
Qed.

Lemma to_string_size_safe (n : nat) : safe_value (to_string_size n) = true.
Proof.
  unfold safe_value, to_string_size.
  now destruct (digits_one_line (N.to_uint (N.of_nat n))) as [-> _].
Qed.

Lemma phrase_one_line (st : Z) :
  has_crlf (HttpResponse.toStatusString_switch st) = false.
Proof.
  destruct (in_dec Z.eq_dec st HttpResponse.mapped) as [Hin|Hun].
  - repeat (destruct Hin as [<-|Hin]; [reflexivity|]). contradiction.
  - now rewrite switch_default.
Qed.

Lemma status_line_start (r : HttpResponse.t) :
  status_line r = status_start (HttpResponse.mStatus r) ++ CRLF.
Proof.
  unfold status_line, status_start. string_normalize. reflexivity.
Qed.

Lemma status_start_one_line (st : Z) : has_crlf (status_start st) = false.
Proof.
  unfold status_start.
  cbn [String.append]. rewrite !has_crlf_cons by reflexivity.
  rewrite has_crlf_app by reflexivity.
  rewrite to_string_int_one_line. cbn [orb].
  cbn [String.append]. rewrite has_crlf_cons by reflexivity.
  apply phrase_one_line.
Qed.

(** What [getResult] returns, read back. *)
Lemma request_read_back (o : HttpRequest.t) (k v : string) :
  safe_request o = true ->
  StdMap.ordered (HttpRequest.mHeadField o) ->
  In (k, v) (HttpRequest.mHeadField o) ->
  exists out,
    eval HttpRequest.getResult o = Some out /\
    lines_for k out = [header_text k v] /\
    body_bytes out = Some (HttpRequest.mBody o).
Proof.
  intros Hsafe Hord Hin.
  unfold safe_request, safe_value in Hsafe.
  rewrite !andb_true_iff, !negb_true_iff in Hsafe.
  destruct Hsafe as [[Hu Hq] Hm].
  pose proof (request_start_one_line o Hu Hq) as Hs.
  eexists. split; [apply request_eval_getResult|].
  rewrite request_line_start. split.
  - now apply message_lines_for.
  - now apply message_read_back.
Qed.

Lemma response_read_back (r : HttpResponse.t) (k v : string) :
  safe_headers (HttpResponse.mHeadField r) = true ->
  StdMap.ordered (HttpResponse.mHeadField r) ->
  In (k, v) (HttpResponse.mHeadField r) ->
  exists out,
    eval HttpResponse.getResult r = Some out /\
    lines_for k out = [header_text k v] /\
    body_bytes out = Some (HttpResponse.mBody r).
Proof.
  intros Hm Hord Hin.
  pose proof (status_start_one_line (HttpResponse.mStatus r)) as Hs.
  eexists. split; [apply response_eval_getResult|].
  rewrite status_line_start. split.
  - now apply message_lines_for.
  - now apply message_read_back.
Qed.

(** ** Body and Content-Length *)

Lemma request_setBody (b : string) (o : HttpRequest.t) :
  exec (HttpRequest.setBody b) o =
  Some (HttpRequest.mk (HttpRequest.mUrl o) (HttpRequest.mQuery o) b
          (HttpRequest.mMethod o)
          (StdMap.assign "Content-Length" (to_string_size (String.length b))
             (HttpRequest.mHeadField o))).
Proof. reflexivity. Qed.

Lemma response_setBody (b : string) (r : HttpResponse.t) :
  exec (HttpResponse.setBody b) r =
  Some (HttpResponse.mk (HttpResponse.mStatus r)
          (StdMap.assign "Content-Length" (to_string_size (String.length b))
             (HttpResponse.mHeadField r))
          b).
Proof. reflexivity. Qed.

(** C2 on objects whose headers do not stay on their lines. [getResult]
    writes fields and values as they are. After
    [addHeadValue("X", "a CRLF Content-Length: 5")], [setBody("hello")] leaves
    two header lines [Content-Length: 5] in the output; after a value that
    holds an empty line the bytes behind the first empty line are not the
    body; and a field named [Content-Length: x], or a url that holds a
    CRLF, puts a second line of the form [Content-Length: <value>] into the
    output. *)
Lemma setBody_content_length_injected :
  option_map (lines_for "Content-Length")
    (HttpRequest.serialized false
       [HttpRequest.AddHeadValue "X" ("a" ++ CRLF ++ "Content-Length: 5");
        HttpRequest.SetBody "hello"])
  = Some ["Content-Length: 5"; "Content-Length: 5"] /\
  option_map body_bytes
    (HttpRequest.serialized false
       [HttpRequest.AddHeadValue "X" ("a" ++ CRLF ++ CRLF ++ "x");
        HttpRequest.SetBody "hello"])
  = Some (Some ("x" ++ CRLF ++ CRLF ++ "hello")) /\
  option_map (lines_for "Content-Length")
    (HttpResponse.serialized 200 true
       [HttpResponse.AddHeadValue "Content-Length: x" "y";
        HttpResponse.SetBody "hello"])
  = Some ["Content-Length: 5"; "Content-Length: x: y"] /\
  option_map (lines_for "Content-Length")
    (HttpRequest.serialized false
       [HttpRequest.SetUrl ("/" ++ CRLF ++ "Content-Length: 9");
        HttpRequest.SetBody "hello"])
  = Some ["Content-Length: 9 HTTP/1.1"; "Content-Length: 5"].
Proof.
  repeat split.
Qed.

(** C2, where the message keeps its lines. On an HttpRequest and an
    HttpResponse reached by any calls (earlier [setBody] calls among them),
    whose url and query (request) and header fields and values hold no CRLF
    and whose header fields hold no colon, [setBody(b)] followed by
    [getResult] returns a message that has exactly one header line for
    [Content-Length], the line [Content-Length: <n>] with n the decimal
    byte count of [b], and whose bytes behind the blank line are [b],
    whatever bytes [b] holds. *)
Theorem setBody_content_length
    (NDEBUG : bool) (cs : list HttpRequest.setter) (o : HttpRequest.t)
    (state : Z) (isKeepAlive : bool) (rcs : list HttpResponse.setter)
    (r : HttpResponse.t) (b : string) :
  HttpRequest.after NDEBUG cs = Some o ->
  safe_request o = true ->
  HttpResponse.after state isKeepAlive rcs = Some r ->
  safe_headers (HttpResponse.mHeadField r) = true ->
  (exists out,
     eval (HttpRequest.setBody b ;; HttpRequest.getResult) o = Some out /\
     lines_for "Content-Length" out =
       ["Content-Length: " ++ decimal (Z.of_nat (String.length b))] /\
     body_bytes out = Some b) /\
  (exists out,
     eval (HttpResponse.setBody b ;; HttpResponse.getResult) r = Some out /\
     lines_for "Content-Length" out =
       ["Content-Length: " ++ decimal (Z.of_nat (String.length b))] /\
     body_bytes out = Some b).
Proof.
  intros Hafter Hsafe Hr Hrsafe.
  assert (Hdec : decimal (Z.of_nat (String.length b)) =
                 to_string_size (String.length b)).
  { unfold decimal, to_string_size. now rewrite <- nat_N_Z, N2Z.id. }
  rewrite Hdec.
  split.
  - apply request_after_ordered in Hafter.
    rewrite eval_then, request_setBody.
    unfold safe_request in Hsafe.
    rewrite !andb_true_iff in Hsafe. destruct Hsafe as [[Hu Hq] Hm].
    destruct (request_read_back
                (HttpRequest.mk (HttpRequest.mUrl o) (HttpRequest.mQuery o) b
                   (HttpRequest.mMethod o)
                   (StdMap.assign "Content-Length"
                      (to_string_size (String.length b))
                      (HttpRequest.mHeadField o)))
                "Content-Length" (to_string_size (String.length b)))
      as (out & Hout & Hlines & Hbody).
    + unfold safe_request. cbn [HttpRequest.mUrl HttpRequest.mQuery
                                HttpRequest.mHeadField].
      rewrite Hu, Hq. cbn [andb].
      apply safe_headers_assign;
        [reflexivity | apply to_string_size_safe | exact Hm].
    + now apply StdMapFacts.assign_ordered.
    + apply StdMapFacts.assign_in.
    + exists out. split; [exact Hout|]. split; [exact Hlines | exact Hbody].
  - destruct (response_after state isKeepAlive rcs) as (r' & Hr' & Hord & _).
    rewrite Hr in Hr'. inversion Hr'; subst r'.
    rewrite eval_then, response_setBody.
    destruct (response_read_back
                (HttpResponse.mk (HttpResponse.mStatus r)
                   (StdMap.assign "Content-Length"
                      (to_string_size (String.length b))
                      (HttpResponse.mHeadField r))
                   b)
                "Content-Length" (to_string_size (String.length b)))
      as (out & Hout & Hlines & Hbody).
    + apply safe_headers_assign;
        [reflexivity | apply to_string_size_safe | exact Hrsafe].
    + now apply StdMapFacts.assign_ordered.
    + apply StdMapFacts.assign_in.
    + exists out. split; [exact Hout|]. split; [exact Hlines | exact Hbody].
Qed.

Lemma setBody_content_length_witness :
  HttpRequest.after false sample_calls = Some sample_request /\
  safe_request sample_request = true /\
  HttpResponse.after 200 true [HttpResponse.SetBody "old"] =
    Some (HttpResponse.mk 200
            [("Connection", "Keep-Alive"); ("Content-Length", "3")] "old") /\
  (exists out,
     eval (HttpRequest.setBody "hello" ;; HttpRequest.getResult) sample_request
       = Some out /\
     lines_for "Content-Length" out =
       ["Content-Length: " ++ decimal (Z.of_nat (String.length "hello"))] /\
     body_bytes out = Some "hello") /\
  (exists out,
     eval (HttpResponse.setBody "hello" ;; HttpResponse.getResult)
          (HttpResponse.mk 200
             [("Connection", "Keep-Alive"); ("Content-Length", "3")] "old")
       = Some out /\
     lines_for "Content-Length" out =
       ["Content-Length: " ++ decimal (Z.of_nat (String.length "hello"))] /\
     body_bytes out = Some "hello").
Proof.
  split; [reflexivity|]. split; [reflexivity|]. split; [reflexivity|].
  apply (setBody_content_length false sample_calls sample_request
           200 true [HttpResponse.SetBody "old"]
           (HttpResponse.mk 200
              [("Connection", "Keep-Alive"); ("Content-Length", "3")] "old")
           "hello"); reflexivity.
Defined.

(** ** Overwriting a header *)

Lemma request_addHeadValue_twice (k v1 v2 : string) (o : HttpRequest.t) :
  exec (HttpRequest.addHeadValue k v1 ;; HttpRequest.addHeadValue k v2) o =
  Some (HttpRequest.with_mHeadField
          (StdMap.assign k v2 (HttpRequest.mHeadField o)) o).
Proof.
  unfold exec, bind, HttpRequest.addHeadValue, update. simpl.
  unfold HttpRequest.with_mHeadField. simpl.
  now rewrite StdMapFacts.assign_assign.
Qed.

Lemma response_addHeadValue_twice (k v1 v2 : string) (r : HttpResponse.t) :
  exec (HttpResponse.addHeadValue k v1 ;; HttpResponse.addHeadValue k v2) r =
  Some (HttpResponse.with_mHeadField
          (StdMap.assign k v2 (HttpResponse.mHeadField r)) r).
Proof.
  unfold exec, bind, HttpResponse.addHeadValue, update. simpl.
  unfold HttpResponse.with_mHeadField. simpl.
  now rewrite StdMapFacts.assign_assign.
Qed.

(** C4 on fields and values that do not stay on one line. On a fresh
    request, [addHeadValue("Host", "a")] and then
    [addHeadValue("Host", "x CRLF Host: y")] leave two header lines for
    [Host], neither of which carries the second value; and next to a field
    named [Host: x] the output has a second line of the form
    [Host: <value>] without any CRLF in an argument; so it has behind a
    query that holds a CRLF. *)
Lemma addHeadValue_line_injected :
  option_map (lines_for "Host")
    (HttpRequest.serialized false
       [HttpRequest.AddHeadValue "Host" "a";
        HttpRequest.AddHeadValue "Host" ("x" ++ CRLF ++ "Host: y")])
  = Some ["Host: x"; "Host: y"] /\
  option_map (lines_for "Host")
    (HttpRequest.serialized false
       [HttpRequest.AddHeadValue "Host: x" "y";
        HttpRequest.AddHeadValue "Host" "a";
        HttpRequest.AddHeadValue "Host" "b"])
  = Some ["Host: b"; "Host: x: y"] /\
  option_map (lines_for "Host")
    (HttpRequest.serialized false
       [HttpRequest.SetQuery ("q" ++ CRLF ++ "Host: y");
        HttpRequest.AddHeadValue "Host" "a";
        HttpRequest.AddHeadValue "Host" "b"])
  = Some ["Host: y HTTP/1.1"; "Host: b"].
Proof.
  repeat split.
Qed.

(** C4, where the message keeps its lines. On an HttpRequest or an
    HttpResponse reached by any calls, whose url and query (request) and
    header fields and values hold no CRLF and whose header fields hold no
    colon, and for a field [k] without colon and CRLF and a value [v2]
    without CRLF: [addHeadValue(k, v1)], [addHeadValue(k, v2)] and then
    [getResult] return a message with exactly one header line for [k], the
    line [k: v2]. Nothing is asked of [v1]. *)
Theorem addHeadValue_last_write_wins
    (NDEBUG : bool) (cs : list HttpRequest.setter) (o : HttpRequest.t)
    (state : Z) (isKeepAlive : bool) (rcs : list HttpResponse.setter)
    (r : HttpResponse.t) (k v1 v2 : string) :
  HttpRequest.after NDEBUG cs = Some o ->
  safe_request o = true ->
  HttpResponse.after state isKeepAlive rcs = Some r ->
  safe_headers (HttpResponse.mHeadField r) = true ->
  safe_field k = true ->
  safe_value v2 = true ->
  (exists out,
     eval (HttpRequest.addHeadValue k v1 ;; HttpRequest.addHeadValue k v2 ;;
           HttpRequest.getResult) o = Some out /\
     lines_for k out = [k ++ ": " ++ v2]) /\
  (exists out,
     eval (HttpResponse.addHeadValue k v1 ;; HttpResponse.addHeadValue k v2 ;;
           HttpResponse.getResult) r = Some out /\
     lines_for k out = [k ++ ": " ++ v2]).
Proof.
  intros Hafter Hsafe Hr Hrsafe Hk Hv.
  split.
  - apply request_after_ordered in Hafter.
    unfold safe_request in Hsafe.
    rewrite !andb_true_iff in Hsafe. destruct Hsafe as [[Hu Hq] Hm].
    destruct (request_read_back
                (HttpRequest.with_mHeadField
                   (StdMap.assign k v2 (HttpRequest.mHeadField o)) o) k v2)
      as (out & Hout & Hlines & _).
    + unfold safe_request. cbn [HttpRequest.with_mHeadField HttpRequest.mUrl
                                HttpRequest.mQuery HttpRequest.mHeadField].
      rewrite Hu, Hq. cbn [andb]. now apply safe_headers_assign.
    + now apply StdMapFacts.assign_ordered.
    + apply StdMapFacts.assign_in.
    + exists out. split; [|exact Hlines].
      rewrite <- Hout.
      change (HttpRequest.addHeadValue k v1 ;; HttpRequest.addHeadValue k v2 ;;
              HttpRequest.getResult)
        with ((HttpRequest.addHeadValue k v1) ;;
              (HttpRequest.addHeadValue k v2 ;; HttpRequest.getResult)).
      rewrite eval_then.
      change (exec (HttpRequest.addHeadValue k v1) o)
        with (Some (HttpRequest.with_mHeadField
                      (StdMap.assign k v1 (HttpRequest.mHeadField o)) o)).
      cbn iota. rewrite eval_then.
      change (exec (HttpRequest.addHeadValue k v2) ?x)
        with (Some (HttpRequest.with_mHeadField
                      (StdMap.assign k v2 (HttpRequest.mHeadField x)) x)).
      cbn iota.
      cbn [HttpRequest.with_mHeadField HttpRequest.mHeadField
           HttpRequest.mUrl HttpRequest.mQuery HttpRequest.mBody
           HttpRequest.mMethod].
      now rewrite StdMapFacts.assign_assign.
  - destruct (response_after state isKeepAlive rcs) as (r' & Hr' & Hord & _).
    rewrite Hr in Hr'. inversion Hr'; subst r'.
    destruct (response_read_back
                (HttpResponse.with_mHeadField
                   (StdMap.assign k v2 (HttpResponse.mHeadField r)) r) k v2)
      as (out & Hout & Hlines & _).
    + now apply safe_headers_assign.
    + now apply StdMapFacts.assign_ordered.
    + apply StdMapFacts.assign_in.
    + exists out. split; [|exact Hlines].
      rewrite <- Hout.
      rewrite eval_then.
      change (exec (HttpResponse.addHeadValue k v1) r)
        with (Some (HttpResponse.with_mHeadField
                      (StdMap.assign k v1 (HttpResponse.mHeadField r)) r)).
      cbn iota. rewrite eval_then.
      change (exec (HttpResponse.addHeadValue k v2) ?x)
        with (Some (HttpResponse.with_mHeadField
                      (StdMap.assign k v2 (HttpResponse.mHeadField x)) x)).
      cbn iota.
      cbn [HttpResponse.with_mHeadField HttpResponse.mHeadField
           HttpResponse.mStatus HttpResponse.mBody].
      now rewrite StdMapFacts.assign_assign.
Qed.

Lemma addHeadValue_last_write_wins_witness :
  HttpRequest.after false sample_calls = Some sample_request /\
  safe_request sample_request = true /\
  HttpResponse.after 404 false [] =
    Some (HttpResponse.mk 404 [("Connection", "Close")] "") /\
  safe_field "Host" = true /\
  safe_value "b.example" = true /\
  (exists out,
     eval (HttpRequest.addHeadValue "Host" "a.example" ;;
           HttpRequest.addHeadValue "Host" "b.example" ;;
           HttpRequest.getResult) sample_request = Some out /\
     lines_for "Host" out = ["Host" ++ ": " ++ "b.example"]) /\
  (exists out,
     eval (HttpResponse.addHeadValue "Host" "a.example" ;;
           HttpResponse.addHeadValue "Host" "b.example" ;;
           HttpResponse.getResult)
          (HttpResponse.mk 404 [("Connection", "Close")] "") = Some out /\
     lines_for "Host" out = ["Host" ++ ": " ++ "b.example"]).
Proof.
  do 5 (split; [reflexivity|]).
  apply (addHeadValue_last_write_wins false sample_calls sample_request
           404 false [] (HttpResponse.mk 404 [("Connection", "Close")] "")
           "Host" "a.example" "b.example"); reflexivity.
Defined.

(** ** The Connection header *)

(** C10 next to a field whose name holds a colon. After
    [addHeadValue("Connection: x", "y")] on a default response the output
    has two header lines of the form [Connection: <value>]: the
    constructor's and [Connection: x: y]. No argument holds a CR or LF. *)
Lemma response_connection_line_doubled :
  option_map (lines_for "Connection")
    (HttpResponse.serialized HttpResponse.status.ok true
       [HttpResponse.AddHeadValue "Connection: x" "y"])
  = Some ["Connection: Keep-Alive"; "Connection: x: y"].
Proof.
  reflexivity.
Qed.

(** C10, where the message keeps its lines. After construction with any
    arguments and any sequence of setter calls the header map of an
    HttpResponse has an entry for [Connection] (no call removes one). When
    the header fields then hold no colon and no CRLF and the header values
    no CRLF, the string [getResult] returns has exactly one header line of
    the form [Connection: <value>], the line of that entry. *)
Theorem response_connection_line
    (state : Z) (isKeepAlive : bool) (cs : list HttpResponse.setter)
    (r : HttpResponse.t) :
  HttpResponse.after state isKeepAlive cs = Some r ->
  safe_headers (HttpResponse.mHeadField r) = true ->
  exists value out,
    In ("Connection", value) (HttpResponse.mHeadField r) /\
    HttpResponse.serialized state isKeepAlive cs = Some out /\
    eval HttpResponse.getResult r = Some out /\
    lines_for "Connection" out = ["Connection: " ++ value].
Proof.
  intros Hr Hsafe.
  destruct (response_after state isKeepAlive cs) as (r' & Hr' & Hm & Hc).
  rewrite Hr in Hr'. inversion Hr'; subst r'.
  unfold StdMap.keys in Hc. apply in_map_iff in Hc.
  destruct Hc as ([k value] & Hk & Hin). simpl in Hk. subst k.
  destruct (response_read_back r "Connection" value Hsafe Hm Hin)
    as (out & Hout & Hlines & _).
  exists value, out.
  split; [exact Hin|].
  split; [|split; [exact Hout | exact Hlines]].
  unfold HttpResponse.serialized, HttpResponse.after in *.
  destruct (HttpResponse.construct state isKeepAlive) as [o|];
    [|discriminate].
  rewrite eval_then. now rewrite Hr.
Qed.

Lemma response_connection_line_witness :
  HttpResponse.after 200 false
    [HttpResponse.SetContentType "text/plain"; HttpResponse.SetBody "hi"] =
    Some (HttpResponse.mk 200
            [("Connection", "Close"); ("Content-Length", "2");
             ("Content-Type", "text/plain")] "hi") /\
  safe_headers [("Connection", "Close"); ("Content-Length", "2");
                ("Content-Type", "text/plain")] = true /\
  exists value out,
    In ("Connection", value)
       [("Connection", "Close"); ("Content-Length", "2");
        ("Content-Type", "text/plain")] /\
    HttpResponse.serialized 200 false
      [HttpResponse.SetContentType "text/plain"; HttpResponse.SetBody "hi"]
      = Some out /\
    eval HttpResponse.getResult
         (HttpResponse.mk 200
            [("Connection", "Close"); ("Content-Length", "2");
             ("Content-Type", "text/plain")] "hi") = Some out /\
    lines_for "Connection" out = ["Connection: " ++ value].
Proof.
  split; [reflexivity|]. split; [reflexivity|].
  apply (response_connection_line 200 false
           [HttpResponse.SetContentType "text/plain"; HttpResponse.SetBody "hi"]
           (HttpResponse.mk 200
              [("Connection", "Close"); ("Content-Length", "2");
               ("Content-Type", "text/plain")] "hi")); reflexivity.
Defined.

(** ** Headers in key order *)

Lemma assign_new_key (k v : string) (m : StdMap.t) :
  ~ In k (StdMap.keys m) -> Permutation (StdMap.assign k v m) ((k, v) :: m).
Proof.
  induction m as [|[k' v'] m IH]; simpl; intros Hk.
  - apply Permutation_refl.
  - destruct (StdMapFacts.compare_cases k k') as [[E _]|[[E Q]|[E _]]];
      rewrite E.
    + apply Permutation_refl.
    + exfalso. apply Hk. now left.
    + apply Permutation_trans with ((k', v') :: (k, v) :: m).
      * apply perm_skip. apply IH. intros Hin. apply Hk. now right.
      * apply perm_swap.
Qed.

Lemma assign_all_new_keys (l : list (string * string)) (m : StdMap.t) :
  NoDup (map fst l) ->
  (forall x, In x (map fst l) -> ~ In x (StdMap.keys m)) ->
  Permutation (assign_all l m) (l ++ m)%list.
Proof.
  revert m.
  induction l as [|[k v] l IH]; intros m Hnd Hdis; simpl.
  - apply Permutation_refl.
  - inversion Hnd as [|? ? Hk Hnd']; subst.
    assert (Hkm : ~ In k (StdMap.keys m)) by (apply Hdis; now left).
    pose proof (assign_new_key k v m Hkm) as Hp.
    apply Permutation_trans with (l ++ StdMap.assign k v m)%list.
    + apply IH; [exact Hnd'|].
      intros x Hx Hin.
      apply (Permutation_in _ (Permutation_map fst Hp)) in Hin.
      destruct Hin as [<-|Hin]; [exact (Hk Hx)|].
      apply (Hdis x); [now right | exact Hin].
    + apply Permutation_trans with (l ++ (k, v) :: m)%list.
      * now apply Permutation_app_head.
      * apply Permutation_sym, Permutation_middle.
Qed.

Lemma request_serialized_after (NDEBUG : bool) (cs : list HttpRequest.setter)
    (o : HttpRequest.t) :
  HttpRequest.after NDEBUG cs = Some o ->
  HttpRequest.serialized NDEBUG cs = eval HttpRequest.getResult o.
Proof.
  unfold HttpRequest.serialized, HttpRequest.after.
  destruct (HttpRequest.construct NDEBUG) as [o0|]; [|discriminate].
  intros Hr. rewrite eval_then. now rewrite Hr.
Qed.

Lemma response_serialized_after (state : Z) (isKeepAlive : bool)
    (cs : list HttpResponse.setter) (r : HttpResponse.t) :
  HttpResponse.after state isKeepAlive cs = Some r ->
  HttpResponse.serialized state isKeepAlive cs = eval HttpResponse.getResult r.
Proof.
  unfold HttpResponse.serialized, HttpResponse.after.
  destruct (HttpResponse.construct state isKeepAlive) as [o0|]; [|discriminate].
  intros Hr. rewrite eval_then. now rewrite Hr.
Qed.

Lemma request_after_headers (NDEBUG : bool) (l : list (string * string)) :
  HttpRequest.after NDEBUG (request_headers l) =
  Some (HttpRequest.mk "" "" "" HttpRequest.HTTP_METHOD_GET (assign_all l [])).
Proof.
  unfold HttpRequest.after, HttpRequest.construct.
  rewrite request_construct_over. now rewrite request_addHeadValue_all.
Qed.

Lemma response_after_headers (state : Z) (isKeepAlive : bool)
    (l : list (string * string)) :
  HttpResponse.after state isKeepAlive (response_headers l) =
  Some (HttpResponse.mk state
          (assign_all l
             [("Connection", if isKeepAlive then "Keep-Alive" else "Close")])
          "").
Proof.
  unfold HttpResponse.after.
  rewrite response_construct. now rewrite response_addHeadValue_all.
Qed.

(** C3. Header pairs with distinct fields, added with [addHeadValue] to a
    fresh HttpRequest (or HttpResponse) in one order [l] or in another order
    [l'], leave the same object and the same bytes from [getResult]. The
    header lines come in ascending order of the field names, compared as
    byte strings; in the request they are the lines of the given pairs. *)
Theorem header_order_insertion_independent
    (NDEBUG : bool) (state : Z) (isKeepAlive : bool)
    (l l' : list (string * string)) :
  NoDup (map fst l) ->
  Permutation l l' ->
  (exists o out,
     HttpRequest.after NDEBUG (request_headers l) = Some o /\
     HttpRequest.after NDEBUG (request_headers l') = Some o /\
     HttpRequest.serialized NDEBUG (request_headers l) = Some out /\
     HttpRequest.serialized NDEBUG (request_headers l') = Some out /\
     out = "GET  HTTP/1.1" ++ CRLF ++
           header_block (HttpRequest.mHeadField o) ++ CRLF /\
     StdMap.ordered (HttpRequest.mHeadField o) /\
     Permutation (HttpRequest.mHeadField o) l) /\
  (exists r out,
     HttpResponse.after state isKeepAlive (response_headers l) = Some r /\
     HttpResponse.after state isKeepAlive (response_headers l') = Some r /\
     HttpResponse.serialized state isKeepAlive (response_headers l) = Some out /\
     HttpResponse.serialized state isKeepAlive (response_headers l') = Some out /\
     out = status_line r ++ header_block (HttpResponse.mHeadField r) ++ CRLF /\
     StdMap.ordered (HttpResponse.mHeadField r)).
Proof.
  intros Hnd Hp.
  split.
  - pose proof (request_after_headers NDEBUG l) as Hl.
    pose proof (request_after_headers NDEBUG l') as Hl'.
    rewrite <- (assign_all_permutation l l' Hp Hnd) in Hl'.
    eexists. eexists.
    split; [exact Hl|]. split; [exact Hl'|].
    rewrite (request_serialized_after _ _ _ Hl),
            (request_serialized_after _ _ _ Hl'),
            request_eval_getResult.
    cbn [HttpRequest.mHeadField HttpRequest.mBody].
    split; [reflexivity|]. split; [reflexivity|].
    split; [string_normalize; reflexivity|].
    split.
    + apply assign_all_ordered. constructor.
    + rewrite <- (app_nil_r l) at 2.
      apply assign_all_new_keys; [exact Hnd|].
      intros x _ [].
  - pose proof (response_after_headers state isKeepAlive l) as Hl.
    pose proof (response_after_headers state isKeepAlive l') as Hl'.
    rewrite <- (assign_all_permutation l l' Hp Hnd) in Hl'.
    eexists. eexists.
    split; [exact Hl|]. split; [exact Hl'|].
    rewrite (response_serialized_after _ _ _ _ Hl),
            (response_serialized_after _ _ _ _ Hl'),
            response_eval_getResult.
    cbn [HttpResponse.mHeadField HttpResponse.mBody].
    split; [reflexivity|]. split; [reflexivity|].
    split; [string_normalize; reflexivity|].
    apply assign_all_ordered. repeat constructor.
Qed.

Lemma header_order_insertion_independent_witness :
  NoDup (map fst [("Host", "example.org"); ("Accept", "*/*"); ("Cookie", "a=b")]) /\
  Permutation
    [("Host", "example.org"); ("Accept", "*/*"); ("Cookie", "a=b")]
    [("Accept", "*/*"); ("Host", "example.org"); ("Cookie", "a=b")] /\
  HttpRequest.serialized false
    (request_headers
       [("Host", "example.org"); ("Accept", "*/*"); ("Cookie", "a=b")]) =
  HttpRequest.serialized false
    (request_headers
       [("Accept", "*/*"); ("Host", "example.org"); ("Cookie", "a=b")]).
Proof.
  assert (Hnd : NoDup (map fst [("Host", "example.org"); ("Accept", "*/*");
                                ("Cookie", "a=b")])).
  { repeat constructor; simpl; intuition discriminate. }
  assert (Hp : Permutation
                 [("Host", "example.org"); ("Accept", "*/*"); ("Cookie", "a=b")]
                 [("Accept", "*/*"); ("Host", "example.org"); ("Cookie", "a=b")])
    by apply perm_swap.
  split; [exact Hnd|]. split; [exact Hp|].
  destruct (header_order_insertion_independent false 200 true _ _ Hnd Hp)
    as [(o & out & _ & _ & H1 & H2 & _) _].
  now rewrite H1, H2.
Defined.

(** * Further properties of the builders *)

(** ** Entries of the ordered map *)

(** An assignment leaves the entries of the other keys alone. *)
Lemma assign_other (k v k' v' : string) (m : StdMap.t) :
  k' <> k ->
  In (k', v') (StdMap.assign k v m) <-> In (k', v') m.
Proof.
  intros Hne.
  induction m as [|[x w] m IH]; simpl.
  - split; [intros [E|[]]; congruence | intros []].
  - destruct (StdMapFacts.compare_cases k x) as [[E _]|[[E Q]|[E _]]];
      rewrite E; simpl.
    + split; [intros [H|H]; [congruence | exact H] | intros H; now right].
    + subst x.
      split; (intros [H|H]; [congruence | now right]).
    + rewrite IH. reflexivity.
Qed.

Lemma keys_functional (k v v' : string) (m : StdMap.t) :
  NoDup (StdMap.keys m) -> In (k, v) m -> In (k, v') m -> v = v'.
Proof.
  induction m as [|[x w] m IH]; simpl; intros Hnd H1 H2; [contradiction|].
  inversion Hnd as [|? ? Hx Hnd']; subst.
  assert (Hkey : forall u, In (x, u) m -> False).
  { intros u Hu. apply Hx. change x with (fst (x, u)). now apply in_map. }
  destruct H1 as [H1|H1], H2 as [H2|H2].
  - congruence.
  - inversion H1; subst. now elim (Hkey v').
  - inversion H2; subst. now elim (Hkey v).
  - now apply IH.
Qed.

(** After [m[k] = v] the entry of [k] carries [v] and nothing else. *)
Lemma assign_same (k v v' : string) (m : StdMap.t) :
  StdMap.ordered m -> In (k, v') (StdMap.assign k v m) -> v' = v.
Proof.
  intros Hm Hin.
  apply (keys_functional k v' v (StdMap.assign k v m)).
  - now apply StdMapFacts.ordered_NoDup, StdMapFacts.assign_ordered.
  - exact Hin.
  - apply StdMapFacts.assign_in.
Qed.

Lemma assign_lookup (k v k' v' : string) (m : StdMap.t) :
  StdMap.ordered m ->
  In (k', v') (StdMap.assign k v m) <->
  (k' = k /\ v' = v) \/ (k' <> k /\ In (k', v') m).
Proof.
  intros Hm.
  destruct (string_dec k' k) as [->|Hne].
  - split.
    + intros Hin. left. split; [reflexivity | now apply (assign_same k v v' m)].
    + intros [[_ ->]|[Hne _]]; [apply StdMapFacts.assign_in | now elim Hne].
  - rewrite (assign_other k v k' v' m Hne).
    split; [intros H; right; now split | intros [[E _]|[_ H]]; [now elim Hne | exact H]].
Qed.

Lemma last_value_snoc (k f v : string) (ws : list (string * string)) :
  last_value k (ws ++ [(f, v)])%list =
  if String.eqb f k then Some v else last_value k ws.
Proof.
  induction ws as [|[f' v'] ws IH]; simpl.
  - reflexivity.
  - rewrite IH. destruct (String.eqb f k); [reflexivity|].
    now destruct (last_value k ws).
Qed.

Lemma assign_all_snoc (ws : list (string * string)) (f v : string)
    (m : StdMap.t) :
  assign_all (ws ++ [(f, v)])%list m = StdMap.assign f v (assign_all ws m).
Proof.
  unfold assign_all. now rewrite fold_left_app.
Qed.

(** Insert and look up: the map built by a list of assignments holds, for
    every key, the value of the last assignment to it. *)
Lemma assign_all_last_value (ws : list (string * string)) (k v : string) :
  In (k, v) (assign_all ws []) <-> last_value k ws = Some v.
Proof.
  induction ws as [|[f w] ws IH] using rev_ind.
  - simpl. split; [intros [] | discriminate].
  - rewrite assign_all_snoc, last_value_snoc.
    rewrite assign_lookup by (apply assign_all_ordered; constructor).
    destruct (String.eqb_spec f k) as [->|Hne].
    + split.
      * intros [[_ ->]|[Hk _]]; [reflexivity | now elim Hk].
      * intros E. left. split; [reflexivity | congruence].
    + rewrite IH. split.
      * intros [[E _]|[_ H]]; [now elim Hne | exact H].
      * intros H. right. split; [congruence | exact H].
Qed.

(** ** The header map after a sequence of calls *)

Lemma request_calls_headers (NDEBUG : bool) (cs : list HttpRequest.setter)
    (o0 o : HttpRequest.t) :
  exec (each (HttpRequest.call NDEBUG) cs) o0 = Some o ->
  HttpRequest.mHeadField o =
  assign_all (request_header_writes cs) (HttpRequest.mHeadField o0).
Proof.
  revert o0.
  induction cs as [|c cs IH]; intros o0 Hrun.
  - unfold exec in Hrun. simpl in Hrun. now inversion Hrun.
  - simpl each in Hrun. rewrite exec_then in Hrun.
    destruct (exec (HttpRequest.call NDEBUG c) o0) as [o1|] eqn:E;
      [|discriminate].
    rewrite (IH o1 Hrun).
    unfold request_header_writes. simpl flat_map. unfold assign_all.
    rewrite fold_left_app. f_equal.
    destruct c; unfold exec in E; simpl in E.
    1: { unfold HttpRequest.setMethod, bind, update, this, assert in E.
         simpl in E. destruct (NDEBUG || _); inversion E; reflexivity. }
    all: inversion E; reflexivity.
Qed.

Lemma response_calls_headers (cs : list HttpResponse.setter)
    (r0 r : HttpResponse.t) :
  exec (each HttpResponse.call cs) r0 = Some r ->
  HttpResponse.mHeadField r =
  assign_all (response_header_writes cs) (HttpResponse.mHeadField r0).
Proof.
  revert r0.
  induction cs as [|c cs IH]; intros r0 Hrun.
  - unfold exec in Hrun. simpl in Hrun. now inversion Hrun.
  - simpl each in Hrun. rewrite exec_then in Hrun.
    destruct (exec (HttpResponse.call c) r0) as [r1|] eqn:E; [|discriminate].
    rewrite (IH r1 Hrun).
    unfold response_header_writes. simpl flat_map. unfold assign_all.
    rewrite fold_left_app. f_equal.
    destruct c; unfold exec in E; simpl in E; inversion E; reflexivity.
Qed.

(** X1. Whatever setters were called on an HttpRequest, and in whatever
    order, its header map holds an entry [(k, v)] exactly when some call
    assigned the field [k] and the last such call assigned [v]. The calls
    that assign a field are [addHeadValue(k, _)], [setHost] (Host),
    [setCookie] (Cookie), [setContentType] (Content-Type) and [setBody]
    (Content-Length). No header appears that was not set, none disappears,
    and a later call to the same field wins whichever setter made it. *)
Theorem request_headers_last_write
    (NDEBUG : bool) (cs : list HttpRequest.setter) (o : HttpRequest.t)
    (k v : string) :
  HttpRequest.after NDEBUG cs = Some o ->
  In (k, v) (HttpRequest.mHeadField o) <->
  last_value k (request_header_writes cs) = Some v.
Proof.
  unfold HttpRequest.after, HttpRequest.construct.
  rewrite request_construct_over. intros Hrun.
  rewrite (request_calls_headers NDEBUG cs _ o Hrun).
  apply assign_all_last_value.
Qed.

Lemma request_headers_last_write_witness :
  HttpRequest.after false
    [HttpRequest.SetBody "abc"; HttpRequest.SetHost "a.example";
     HttpRequest.AddHeadValue "Content-Length" "10";
     HttpRequest.AddHeadValue "Host" "b.example"]
  = Some (HttpRequest.mk "" "" "abc" HttpRequest.HTTP_METHOD_GET
            [("Content-Length", "10"); ("Host", "b.example")]) /\
  (In ("Content-Length", "10")
      [("Content-Length", "10"); ("Host", "b.example")] <->
   last_value "Content-Length"
     (request_header_writes
        [HttpRequest.SetBody "abc"; HttpRequest.SetHost "a.example";
         HttpRequest.AddHeadValue "Content-Length" "10";
         HttpRequest.AddHeadValue "Host" "b.example"]) = Some "10").
Proof.
  split; [reflexivity|].
  apply (request_headers_last_write false
           [HttpRequest.SetBody "abc"; HttpRequest.SetHost "a.example";
            HttpRequest.AddHeadValue "Content-Length" "10";
            HttpRequest.AddHeadValue "Host" "b.example"]
           (HttpRequest.mk "" "" "abc" HttpRequest.HTTP_METHOD_GET
              [("Content-Length", "10"); ("Host", "b.example")])
           "Content-Length" "10").
  reflexivity.
Defined.

(** X2. The header map of an HttpResponse, after construction and any
    setter calls, holds an entry [(k, v)] exactly when [v] is the value last
    assigned to [k], the constructor's assignment to [Connection] counting as
    the first one: [addHeadValue("Connection", _)] replaces the constructor's
    value, and nothing else does. *)
Theorem response_headers_last_write
    (state : Z) (isKeepAlive : bool) (cs : list HttpResponse.setter)
    (k v : string) :
  exists r,
    HttpResponse.after state isKeepAlive cs = Some r /\
    (In (k, v) (HttpResponse.mHeadField r) <->
     last_value k
       (("Connection", if isKeepAlive then "Keep-Alive" else "Close")
          :: response_header_writes cs) = Some v).
Proof.
  destruct (response_after state isKeepAlive cs) as (r & Hr & _).
  exists r. split; [exact Hr|].
  unfold HttpResponse.after in Hr. rewrite response_construct in Hr.
  rewrite (response_calls_headers cs _ r Hr).
  cbn [HttpResponse.mHeadField].
  rewrite <- assign_all_last_value.
  reflexivity.
Qed.

(** ** The assertion of setMethod *)

Lemma asserted_test (m : Z) :
  ((m >? HttpRequest.HTTP_METHOD_HEAD)%Z && (m <? HttpRequest.HTTP_METHOD_MAX)%Z)
  = true <-> asserted m.
Proof.
  unfold asserted, HttpRequest.HTTP_METHOD_HEAD, HttpRequest.HTTP_METHOD_MAX.
  rewrite andb_true_iff, Z.gtb_ltb, !Z.ltb_lt. reflexivity.
Qed.

Lemma request_setMethod (NDEBUG : bool) (m : Z) (o : HttpRequest.t) :
  exec (HttpRequest.setMethod NDEBUG m) o =
  if NDEBUG || ((m >? HttpRequest.HTTP_METHOD_HEAD)%Z &&
                (m <? HttpRequest.HTTP_METHOD_MAX)%Z)
  then Some (HttpRequest.with_mMethod m o)
  else None.
Proof.
  unfold HttpRequest.setMethod, exec, bind, update, this, assert. simpl.
  now destruct (NDEBUG || _).
Qed.

(** Every setter but [setMethod] runs to its end. *)
Lemma request_call_runs (NDEBUG : bool) (c : HttpRequest.setter)
    (o : HttpRequest.t) :
  (forall m, c <> HttpRequest.SetMethod m) ->
  exists o', exec (HttpRequest.call NDEBUG c) o = Some o'.
Proof.
  intros Hc. destruct c; try (eexists; reflexivity).
  now elim (Hc protocol).
Qed.

Lemma request_calls_abort (NDEBUG : bool) (cs : list HttpRequest.setter)
    (o : HttpRequest.t) :
  exec (each (HttpRequest.call NDEBUG) cs) o = None <->
  NDEBUG = false /\
  exists m, In (HttpRequest.SetMethod m) cs /\ ~ asserted m.
Proof.
  revert o.
  induction cs as [|c cs IH]; intros o.
  - split; [discriminate | intros (_ & m & [] & _)].
  - simpl each. rewrite exec_then.
    destruct (exec (HttpRequest.call NDEBUG c) o) as [o1|] eqn:E.
    + rewrite IH. split.
      * intros (Hn & m & Hin & Hm). split; [exact Hn|].
        exists m. split; [now right | exact Hm].
      * intros (Hn & m & [Hc|Hin] & Hm).
        -- exfalso. subst c NDEBUG. simpl in E.
           rewrite request_setMethod in E. simpl in E.
           destruct ((m >? _)%Z && _) eqn:T; [|discriminate].
           apply Hm, asserted_test, T.
        -- split; [exact Hn|]. exists m. now split.
    + split; [intros _ | reflexivity].
      destruct c; try discriminate E.
      simpl in E. rewrite request_setMethod in E.
      destruct NDEBUG; [discriminate|]. simpl in E.
      split; [reflexivity|].
      exists protocol. split; [now left|].
      intros Hm. apply asserted_test in Hm. rewrite Hm in E. discriminate.
Qed.

(** X3. A sequence of setter calls on a fresh HttpRequest is aborted exactly
    when assertions are compiled in and it contains a call [setMethod(m)]
    whose argument fails the assertion [HEAD < m < MAX]; with [NDEBUG], or
    without such a call, every sequence runs to its end and [getResult]
    returns a string. *)
Theorem request_calls_abort_iff (NDEBUG : bool) (cs : list HttpRequest.setter) :
  (HttpRequest.after NDEBUG cs = None <->
   NDEBUG = false /\
   exists m, In (HttpRequest.SetMethod m) cs /\ ~ asserted m) /\
  (HttpRequest.serialized NDEBUG cs = None <->
   HttpRequest.after NDEBUG cs = None).
Proof.
  split.
  - unfold HttpRequest.after, HttpRequest.construct.
    rewrite request_construct_over. apply request_calls_abort.
  - destruct (HttpRequest.after NDEBUG cs) as [o|] eqn:E.
    + rewrite (request_serialized_after NDEBUG cs o E), request_eval_getResult.
      split; discriminate.
    + split; [reflexivity | intros _].
      unfold HttpRequest.serialized, HttpRequest.after in *.
      destruct (HttpRequest.construct NDEBUG) as [o0|]; [|reflexivity].
      rewrite eval_then. now rewrite E.
Qed.

Lemma request_call_method (c : HttpRequest.setter) (o o' : HttpRequest.t) :
  exec (HttpRequest.call false c) o = Some o' ->
  asserted (HttpRequest.mMethod o) -> asserted (HttpRequest.mMethod o').
Proof.
  intros Hrun Hm.
  destruct c; unfold exec in Hrun; simpl in Hrun.
  1: { change (option_map snd (HttpRequest.setMethod false protocol o))
         with (exec (HttpRequest.setMethod false protocol) o) in Hrun.
       rewrite request_setMethod in Hrun. simpl in Hrun.
       destruct ((protocol >? _)%Z && _) eqn:T; [|discriminate].
       inversion Hrun; subst. simpl. now apply asserted_test. }
  all: inversion Hrun; subst; exact Hm.
Qed.

(** X4. With assertions compiled in, the method of every HttpRequest a
    sequence of calls can reach is GET, POST, PUT or DELETE: [getResult]
    starts with one of these four tokens and a space, never with HEAD and
    never with an empty token. *)
Theorem request_method_invariant
    (cs : list HttpRequest.setter) (o : HttpRequest.t) :
  HttpRequest.after false cs = Some o ->
  In (HttpRequest.mMethod o)
     [HttpRequest.HTTP_METHOD_GET; HttpRequest.HTTP_METHOD_POST;
      HttpRequest.HTTP_METHOD_PUT; HttpRequest.HTTP_METHOD_DELETE] /\
  exists token rest,
    In token ["GET"; "POST"; "PUT"; "DELETE"] /\
    HttpRequest.serialized false cs = Some (token ++ " " ++ rest).
Proof.
  intros Hafter.
  assert (Hm : asserted (HttpRequest.mMethod o)).
  { unfold HttpRequest.after, HttpRequest.construct in Hafter.
    rewrite request_construct_over in Hafter.
    refine (each_invariant (HttpRequest.call false)
              (fun o => asserted (HttpRequest.mMethod o))
              request_call_method cs _ _ Hafter _).
    unfold asserted. simpl. unfold HttpRequest.HTTP_METHOD_GET. lia. }
  rewrite (request_serialized_after false cs o Hafter), request_eval_getResult.
  unfold request_line, method_token, asserted in *.
  assert (Hcases : HttpRequest.mMethod o = 1 \/ HttpRequest.mMethod o = 2 \/
                   HttpRequest.mMethod o = 3 \/ HttpRequest.mMethod o = 4) by lia.
  destruct Hcases as [E|[E|[E|E]]]; rewrite E; simpl.
  - split; [now left|]. exists "GET". eexists. split; [now left|].
    f_equal. string_normalize. reflexivity.
  - split; [now right; left|]. exists "POST". eexists.
    split; [now right; left|]. f_equal. string_normalize. reflexivity.
  - split; [now right; right; left|]. exists "PUT". eexists.
    split; [now right; right; left|]. f_equal. string_normalize. reflexivity.
  - split; [now right; right; right; left|]. exists "DELETE". eexists.
    split; [now right; right; right; left|].
    f_equal. string_normalize. reflexivity.
Qed.

Lemma request_method_invariant_witness :
  HttpRequest.after false
    [HttpRequest.SetMethod HttpRequest.HTTP_METHOD_PUT; HttpRequest.SetUrl "/x"]
  = Some (HttpRequest.mk "/x" "" "" HttpRequest.HTTP_METHOD_PUT []) /\
  In (HttpRequest.mMethod
        (HttpRequest.mk "/x" "" "" HttpRequest.HTTP_METHOD_PUT []))
     [HttpRequest.HTTP_METHOD_GET; HttpRequest.HTTP_METHOD_POST;
      HttpRequest.HTTP_METHOD_PUT; HttpRequest.HTTP_METHOD_DELETE].
Proof.
  split; [reflexivity|].
  apply (request_method_invariant
           [HttpRequest.SetMethod HttpRequest.HTTP_METHOD_PUT;
            HttpRequest.SetUrl "/x"]
           (HttpRequest.mk "/x" "" "" HttpRequest.HTTP_METHOD_PUT [])).
  reflexivity.
Defined.

(** X5. In a build with [NDEBUG], [setMethod(m)] stores any value. For [m]
    outside the enumerators [HEAD .. DELETE] (the value [HTTP_METHOD_MAX], a
    negative one) [getResult] does not index its token table: it returns,
    and the request line has an empty method token, so it starts with the
    space before the url. *)
Theorem request_method_out_of_range (m : Z) (o : HttpRequest.t) :
  ~ (0 <= m < 5) ->
  eval (HttpRequest.setMethod true m ;; HttpRequest.getResult) o =
  Some (" " ++ HttpRequest.mUrl o ++
        (if empty (HttpRequest.mQuery o) then ""
         else "?" ++ HttpRequest.mQuery o) ++
        " HTTP/1.1" ++ CRLF ++
        header_block (HttpRequest.mHeadField o) ++ CRLF ++ HttpRequest.mBody o).
Proof.
  intros Hm.
  rewrite eval_then, request_setMethod. simpl orb. cbn iota.
  rewrite request_eval_getResult.
  unfold request_line, method_token.
  cbn [HttpRequest.with_mMethod HttpRequest.mMethod HttpRequest.mUrl
       HttpRequest.mQuery HttpRequest.mBody HttpRequest.mHeadField].
  assert (T : ((0 <=? m)%Z && (m <? 5)%Z) = false).
  { apply andb_false_iff.
    destruct (Z.leb_spec 0 m); [right; apply Z.ltb_ge; lia | now left]. }
  rewrite T. f_equal. string_normalize. reflexivity.
Qed.

Lemma request_method_out_of_range_witness :
  ~ (0 <= HttpRequest.HTTP_METHOD_MAX < 5) /\
  eval (HttpRequest.setMethod true HttpRequest.HTTP_METHOD_MAX ;;
        HttpRequest.getResult) sample_request =
  Some (" " ++ HttpRequest.mUrl sample_request ++
        (if empty (HttpRequest.mQuery sample_request) then ""
         else "?" ++ HttpRequest.mQuery sample_request) ++
        " HTTP/1.1" ++ CRLF ++
        header_block (HttpRequest.mHeadField sample_request) ++ CRLF ++
        HttpRequest.mBody sample_request).
Proof.
  assert (H : ~ (0 <= HttpRequest.HTTP_METHOD_MAX < 5))
    by (unfold HttpRequest.HTTP_METHOD_MAX; lia).
  split; [exact H|].
  exact (request_method_out_of_range HttpRequest.HTTP_METHOD_MAX
           sample_request H).
Defined.

(** ** Setters in sequence *)

Lemma request_setMethod_run (NDEBUG : bool) (m : Z) (o : HttpRequest.t) :
  HttpRequest.setMethod NDEBUG m o =
  if NDEBUG || ((m >? HttpRequest.HTTP_METHOD_HEAD)%Z &&
                (m <? HttpRequest.HTTP_METHOD_MAX)%Z)
  then Some (tt, HttpRequest.with_mMethod m o)
  else None.
Proof.
  unfold HttpRequest.setMethod, bind, update, this, assert. simpl.
  now destruct (NDEBUG || _).
Qed.

(** Two header fields held apart by the slots of their setters differ. *)
Ltac fields_differ H :=
  first
    [ discriminate
    | let E := fresh "E" in
      intros E; subst;
      eapply H; [simpl; left; reflexivity | simpl; auto] ].

(** Unfold two calls in a row down to the members they assign. *)
Ltac run_calls :=
  unfold bind; simpl;
  repeat first
    [ rewrite request_setMethod_run; simpl
    | match goal with
      | T : (?NDEBUG || ?c) = _ |- context [?NDEBUG || ?c] =>
          rewrite T; simpl
      | |- context [if ?NDEBUG || ?c then _ else _] =>
          let T := fresh "T" in
          destruct (NDEBUG || c) eqn:T; simpl
      end ];
  unfold HttpRequest.setHost, HttpRequest.setCookie,
    HttpRequest.setContentType, HttpRequest.setBody, HttpRequest.setUrl,
    HttpRequest.setQuery, HttpRequest.addHeadValue,
    HttpResponse.setStatus, HttpResponse.setContentType,
    HttpResponse.setBody, HttpResponse.addHeadValue, bind, update;
  simpl.

(** X6. Two setters of an HttpRequest that assign to no common part of it
    (the url, the query, the method, the body, one header field each;
    [setBody] assigns the body and Content-Length) can be called in either
    order: both orders leave the same object, or both are aborted. *)
Theorem request_setters_commute
    (NDEBUG : bool) (c1 c2 : HttpRequest.setter) (o : HttpRequest.t) :
  apart (request_slots c1) (request_slots c2) ->
  (HttpRequest.call NDEBUG c1 ;; HttpRequest.call NDEBUG c2) o =
  (HttpRequest.call NDEBUG c2 ;; HttpRequest.call NDEBUG c1) o.
Proof.
  intros H.
  destruct c1, c2;
    try (exfalso; eapply H; simpl; left; reflexivity);
    run_calls; try reflexivity;
    unfold HttpRequest.with_mHeadField, HttpRequest.with_mBody; simpl;
    rewrite StdMapFacts.assign_comm by fields_differ H; reflexivity.
Qed.

Lemma request_setters_commute_witness :
  apart (request_slots (HttpRequest.SetBody "abc"))
        (request_slots (HttpRequest.AddHeadValue "Accept" "*/*")) /\
  (HttpRequest.call false (HttpRequest.SetBody "abc") ;;
   HttpRequest.call false (HttpRequest.AddHeadValue "Accept" "*/*"))
    sample_request =
  (HttpRequest.call false (HttpRequest.AddHeadValue "Accept" "*/*") ;;
   HttpRequest.call false (HttpRequest.SetBody "abc")) sample_request.
Proof.
  assert (H : apart (request_slots (HttpRequest.SetBody "abc"))
                    (request_slots (HttpRequest.AddHeadValue "Accept" "*/*"))).
  { intros s [<-|[<-|[]]] [E|[]]; discriminate E. }
  split; [exact H|].
  exact (request_setters_commute false _ _ sample_request H).
Defined.

(** X7. The same for the setters of an HttpResponse: the status, the body
    with Content-Length, and one header field each. *)
Theorem response_setters_commute
    (c1 c2 : HttpResponse.setter) (r : HttpResponse.t) :
  apart (response_slots c1) (response_slots c2) ->
  (HttpResponse.call c1 ;; HttpResponse.call c2) r =
  (HttpResponse.call c2 ;; HttpResponse.call c1) r.
Proof.
  intros H.
  destruct c1, c2;
    try (exfalso; eapply H; simpl; left; reflexivity);
    run_calls; try reflexivity;
    unfold HttpResponse.with_mHeadField, HttpResponse.with_mBody; simpl;
    rewrite StdMapFacts.assign_comm by fields_differ H; reflexivity.
Qed.

Lemma response_setters_commute_witness :
  apart (response_slots (HttpResponse.SetContentType "text/html"))
        (response_slots (HttpResponse.SetBody "abc")) /\
  (HttpResponse.call (HttpResponse.SetContentType "text/html") ;;
   HttpResponse.call (HttpResponse.SetBody "abc"))
    (HttpResponse.mk 200 [("Connection", "Close")] "") =
  (HttpResponse.call (HttpResponse.SetBody "abc") ;;
   HttpResponse.call (HttpResponse.SetContentType "text/html"))
    (HttpResponse.mk 200 [("Connection", "Close")] "").
Proof.
  assert (H : apart (response_slots (HttpResponse.SetContentType "text/html"))
                    (response_slots (HttpResponse.SetBody "abc"))).
  { intros s [<-|[]] [E|[E|[]]]; discriminate E. }
  split; [exact H|].
  exact (response_setters_commute _ _
           (HttpResponse.mk 200 [("Connection", "Close")] "") H).
Defined.

(** What an inclusion of slots says about two setters. *)
Ltac slots_included H :=
  unfold incl in H; simpl in H;
  let X := fresh "X" in
  let Y := fresh "Y" in
  pose proof (H _ (or_introl eq_refl)) as X;
  try pose proof (H _ (or_intror (or_introl eq_refl))) as Y;
  repeat match goal with
    | D : _ \/ _ |- _ => destruct D
    | F : False |- _ => contradiction
    | E : HeaderSlot _ = HeaderSlot _ |- _ =>
        first [ discriminate E | injection E as E; try subst | clear E ]
    | E : @eq slot _ _ |- _ => first [ discriminate E | clear E ]
    end.

(** X8. A setter of an HttpRequest overwrites what an earlier setter
    assigned: when every part the first call assigns is assigned by the
    second call too (the same setter again, the same header field through
    another setter, [setBody] after [addHeadValue("Content-Length", _)]),
    and the first call is not aborted, the two calls in a row do what the
    second call does alone. *)
Theorem request_setter_overwrites
    (NDEBUG : bool) (c1 c2 : HttpRequest.setter) (o : HttpRequest.t) :
  incl (request_slots c1) (request_slots c2) ->
  exec (HttpRequest.call NDEBUG c1) o <> None ->
  (HttpRequest.call NDEBUG c1 ;; HttpRequest.call NDEBUG c2) o =
  HttpRequest.call NDEBUG c2 o.
Proof.
  intros H Hrun.
  destruct c1, c2; slots_included H;
    try (simpl in Hrun; rewrite request_setMethod in Hrun);
    run_calls; try reflexivity; try (now elim Hrun);
    unfold HttpRequest.with_mHeadField, HttpRequest.with_mBody; simpl;
    rewrite ?StdMapFacts.assign_assign; reflexivity.
Qed.

Lemma request_setter_overwrites_witness :
  incl (request_slots (HttpRequest.AddHeadValue "Content-Length" "99"))
       (request_slots (HttpRequest.SetBody "abc")) /\
  exec (HttpRequest.call false (HttpRequest.AddHeadValue "Content-Length" "99"))
       sample_request <> None /\
  (HttpRequest.call false (HttpRequest.AddHeadValue "Content-Length" "99") ;;
   HttpRequest.call false (HttpRequest.SetBody "abc")) sample_request =
  HttpRequest.call false (HttpRequest.SetBody "abc") sample_request.
Proof.
  assert (H : incl (request_slots (HttpRequest.AddHeadValue "Content-Length" "99"))
                   (request_slots (HttpRequest.SetBody "abc"))).
  { intros s [<-|[]]. now left. }
  assert (Hrun : exec (HttpRequest.call false
                         (HttpRequest.AddHeadValue "Content-Length" "99"))
                      sample_request <> None) by discriminate.
  split; [exact H|]. split; [exact Hrun|].
  exact (request_setter_overwrites false _ _ sample_request H Hrun).
Defined.

(** X9. The same for the setters of an HttpResponse, none of which can be
    aborted. *)
Theorem response_setter_overwrites
    (c1 c2 : HttpResponse.setter) (r : HttpResponse.t) :
  incl (response_slots c1) (response_slots c2) ->
  (HttpResponse.call c1 ;; HttpResponse.call c2) r = HttpResponse.call c2 r.
Proof.
  intros H.
  destruct c1, c2; slots_included H;
    run_calls; try reflexivity;
    unfold HttpResponse.with_mHeadField, HttpResponse.with_mBody; simpl;
    rewrite ?StdMapFacts.assign_assign; reflexivity.
Qed.

Lemma response_setter_overwrites_witness :
  incl (response_slots (HttpResponse.AddHeadValue "Content-Type" "a"))
       (response_slots (HttpResponse.SetContentType "b")) /\
  (HttpResponse.call (HttpResponse.AddHeadValue "Content-Type" "a") ;;
   HttpResponse.call (HttpResponse.SetContentType "b"))
    (HttpResponse.mk 200 [("Connection", "Close")] "") =
  HttpResponse.call (HttpResponse.SetContentType "b")
    (HttpResponse.mk 200 [("Connection", "Close")] "").
Proof.
  assert (H : incl (response_slots (HttpResponse.AddHeadValue "Content-Type" "a"))
                   (response_slots (HttpResponse.SetContentType "b"))).
  { intros s [<-|[]]. now left. }
  split; [exact H|].
  exact (response_setter_overwrites _ _
           (HttpResponse.mk 200 [("Connection", "Close")] "") H).
Defined.

(** ** Content-Length and the body *)

Lemma length_declared_other (k v : string) (m : StdMap.t) (body : string) :
  k <> "Content-Length" ->
  length_declared m body -> length_declared (StdMap.assign k v m) body.
Proof.
  intros Hk (Hm & Hlen & Hnone).
  split; [now apply StdMapFacts.assign_ordered|]. split.
  - intros w Hin. apply Hlen.
    apply (assign_other k v "Content-Length" w m); [congruence | exact Hin].
  - intros Hno. apply Hnone. intros Hin. apply Hno.
    now apply StdMapFacts.assign_keeps_key.
Qed.

Lemma length_declared_setBody (m : StdMap.t) (old body : string) :
  length_declared m old ->
  length_declared
    (StdMap.assign "Content-Length" (to_string_size (String.length body)) m)
    body.
Proof.
  intros (Hm & _ & _).
  split; [now apply StdMapFacts.assign_ordered|]. split.
  - intros w Hin. now apply (assign_same "Content-Length" _ w m).
  - intros Hno. exfalso. apply Hno.
    change "Content-Length"
      with (fst ("Content-Length", to_string_size (String.length body))).
    apply in_map, StdMapFacts.assign_in.
Qed.

Lemma request_calls_length_declared (NDEBUG : bool)
    (cs : list HttpRequest.setter) (o0 o : HttpRequest.t) :
  exec (each (HttpRequest.call NDEBUG) cs) o0 = Some o ->
  (forall v, ~ In (HttpRequest.AddHeadValue "Content-Length" v) cs) ->
  length_declared (HttpRequest.mHeadField o0) (HttpRequest.mBody o0) ->
  length_declared (HttpRequest.mHeadField o) (HttpRequest.mBody o).
Proof.
  revert o0.
  induction cs as [|c cs IH]; intros o0 Hrun Hcs H0.
  - unfold exec in Hrun. simpl in Hrun. now inversion Hrun; subst.
  - simpl each in Hrun. rewrite exec_then in Hrun.
    destruct (exec (HttpRequest.call NDEBUG c) o0) as [o1|] eqn:E;
      [|discriminate].
    apply (IH o1 Hrun).
    + intros v Hin. apply (Hcs v). now right.
    + destruct c; simpl in E.
      1: { rewrite request_setMethod in E.
           destruct (NDEBUG || _); inversion E; subst. exact H0. }
      all: unfold exec in E; simpl in E; inversion E; subst; simpl;
        try exact H0;
        try (apply length_declared_other; [discriminate | exact H0]).
      * now apply length_declared_setBody with (old := HttpRequest.mBody o0).
      * apply length_declared_other; [|exact H0].
        intros ->. apply (Hcs value). now left.
Qed.

Lemma response_calls_length_declared
    (cs : list HttpResponse.setter) (r0 r : HttpResponse.t) :
  exec (each HttpResponse.call cs) r0 = Some r ->
  (forall v, ~ In (HttpResponse.AddHeadValue "Content-Length" v) cs) ->
  length_declared (HttpResponse.mHeadField r0) (HttpResponse.mBody r0) ->
  length_declared (HttpResponse.mHeadField r) (HttpResponse.mBody r).
Proof.
  revert r0.
  induction cs as [|c cs IH]; intros r0 Hrun Hcs H0.
  - unfold exec in Hrun. simpl in Hrun. now inversion Hrun; subst.
  - simpl each in Hrun. rewrite exec_then in Hrun.
    destruct (exec (HttpResponse.call c) r0) as [r1|] eqn:E; [|discriminate].
    apply (IH r1 Hrun).
    + intros v Hin. apply (Hcs v). now right.
    + destruct c; unfold exec in E; simpl in E; inversion E; subst; simpl;
        try exact H0;
        try (apply length_declared_other; [discriminate | exact H0]).
      * apply length_declared_other; [|exact H0].
        intros ->. apply (Hcs value). now left.
      * now apply length_declared_setBody with (old := HttpResponse.mBody r0).
Qed.

(** X10. As long as no call [addHeadValue("Content-Length", _)] is made, the
    declared length and the body agree in every HttpRequest and HttpResponse
    that calls can reach: a Content-Length header, if present, carries the
    decimal byte count of the stored body, and when it is absent the body is
    empty. *)
Theorem content_length_matches_body
    (NDEBUG : bool) (cs : list HttpRequest.setter) (o : HttpRequest.t)
    (state : Z) (isKeepAlive : bool) (rcs : list HttpResponse.setter) :
  HttpRequest.after NDEBUG cs = Some o ->
  (forall v, ~ In (HttpRequest.AddHeadValue "Content-Length" v) cs) ->
  (forall v, ~ In (HttpResponse.AddHeadValue "Content-Length" v) rcs) ->
  ((forall v, In ("Content-Length", v) (HttpRequest.mHeadField o) ->
              v = decimal (Z.of_nat (String.length (HttpRequest.mBody o)))) /\
   (~ In "Content-Length" (StdMap.keys (HttpRequest.mHeadField o)) ->
    HttpRequest.mBody o = "")) /\
  (exists r,
     HttpResponse.after state isKeepAlive rcs = Some r /\
     (forall v, In ("Content-Length", v) (HttpResponse.mHeadField r) ->
                v = decimal (Z.of_nat (String.length (HttpResponse.mBody r)))) /\
     (~ In "Content-Length" (StdMap.keys (HttpResponse.mHeadField r)) ->
      HttpResponse.mBody r = "")).
Proof.
  intros Hafter Hcs Hrcs.
  assert (Hdec : forall n, decimal (Z.of_nat n) = to_string_size n).
  { intros n. unfold decimal, to_string_size. now rewrite <- nat_N_Z, N2Z.id. }
  split.
  - unfold HttpRequest.after, HttpRequest.construct in Hafter.
    rewrite request_construct_over in Hafter.
    destruct (request_calls_length_declared NDEBUG cs _ o Hafter Hcs)
      as (_ & Hlen & Hnone).
    + split; [constructor|]. split; [intros v []|reflexivity].
    + split; [|exact Hnone]. intros v Hin. rewrite Hdec. now apply Hlen.
  - destruct (response_after state isKeepAlive rcs) as (r & Hr & _).
    exists r. split; [exact Hr|].
    unfold HttpResponse.after in Hr. rewrite response_construct in Hr.
    destruct (response_calls_length_declared rcs _ r Hr Hrcs)
      as (_ & Hlen & Hnone).
    + split; [repeat constructor|]. split; [|reflexivity].
      intros v [E|[]]. discriminate E.
    + split; [|exact Hnone]. intros v Hin. rewrite Hdec. now apply Hlen.
Qed.

Lemma content_length_matches_body_witness :
  HttpRequest.after false sample_calls = Some sample_request /\
  (forall v, In ("Content-Length", v) (HttpRequest.mHeadField sample_request) ->
             v = decimal (Z.of_nat (String.length
                                      (HttpRequest.mBody sample_request)))).
Proof.
  split; [reflexivity|].
  apply (content_length_matches_body false sample_calls sample_request
           200 true []).
  - reflexivity.
  - intros v H. unfold sample_calls in H.
    repeat (destruct H as [H|H]; [discriminate H|]). exact H.
  - intros v [].
Defined.

(** ** Header lines in key order *)

(** X11. In every HttpRequest and HttpResponse that calls can reach, whatever
    setters were used, the header fields are strictly ascending in byte
    order, so no field occurs twice, and [getResult] emits the header lines
    in that order between the start line and the blank line. *)
Theorem headers_ascending
    (NDEBUG : bool) (cs : list HttpRequest.setter) (o : HttpRequest.t)
    (state : Z) (isKeepAlive : bool) (rcs : list HttpResponse.setter) :
  HttpRequest.after NDEBUG cs = Some o ->
  (StdMap.ordered (HttpRequest.mHeadField o) /\
   NoDup (StdMap.keys (HttpRequest.mHeadField o)) /\
   HttpRequest.serialized NDEBUG cs =
     Some (request_line o ++ header_block (HttpRequest.mHeadField o) ++
           CRLF ++ HttpRequest.mBody o)) /\
  (exists r,
     HttpResponse.after state isKeepAlive rcs = Some r /\
     StdMap.ordered (HttpResponse.mHeadField r) /\
     NoDup (StdMap.keys (HttpResponse.mHeadField r)) /\
     HttpResponse.serialized state isKeepAlive rcs =
       Some (status_line r ++ header_block (HttpResponse.mHeadField r) ++
             CRLF ++ HttpResponse.mBody r)).
Proof.
  intros Hafter.
  split.
  - pose proof (request_after_ordered NDEBUG cs o Hafter) as Hm.
    split; [exact Hm|].
    split; [now apply StdMapFacts.ordered_NoDup|].
    rewrite (request_serialized_after NDEBUG cs o Hafter).
    apply request_eval_getResult.
  - destruct (response_after state isKeepAlive rcs) as (r & Hr & Hm & _).
    exists r. split; [exact Hr|].
    split; [exact Hm|].
    split; [now apply StdMapFacts.ordered_NoDup|].
    rewrite (response_serialized_after state isKeepAlive rcs r Hr).
    apply response_eval_getResult.
Qed.

Lemma headers_ascending_witness :
  HttpRequest.after false sample_calls = Some sample_request /\
  StdMap.ordered (HttpRequest.mHeadField sample_request).
Proof.
  split; [reflexivity|].
  apply (headers_ascending false sample_calls sample_request 200 true []).
  reflexivity.
Defined.

(** ** Status codes and reason phrases *)

Lemma mapped_range (st : Z) : In st HttpResponse.mapped -> 100 <= st <= 599.
Proof.
  intros H.
  repeat (destruct H as [<-|H]; [lia|]).
  contradiction.
Qed.

(** X12. [toStatusString] returns the placeholder [<unknown-status>] exactly
    for the statuses that are no case label of its switch; every case label
    has a phrase of its own that is not the placeholder. *)
Theorem placeholder_iff_unmapped (r : HttpResponse.t) :
  eval HttpResponse.toStatusString r = Some "<unknown-status>" <->
  ~ In (HttpResponse.mStatus r) HttpResponse.mapped.
Proof.
  unfold eval, HttpResponse.toStatusString, bind, this, pure. simpl.
  split.
  - intros E Hin. inversion E as [E'].
    exact (switch_mapped _ Hin E').
  - intros Hun. now rewrite switch_default.
Qed.

(** X13. The switch of [toStatusString] has a case for every enumerator of
    [status] except [unknown], and for nothing else; no label occurs twice
    and all labels lie between 100 and 599. *)
Theorem status_enumerators_covered (st : Z) :
  (In st HttpResponse.mapped <->
   In st status_enumerators /\ st <> HttpResponse.status.unknown) /\
  NoDup HttpResponse.mapped /\
  Forall (fun label => 100 <= label <= 599) HttpResponse.mapped.
Proof.
  split; [|split].
  - split.
    + intros H.
      repeat (destruct H as [<-|H];
              [split; [right; repeat first [left; reflexivity | right]
                      | discriminate]|]).
      contradiction.
    + intros [H Hne].
      destruct H as [<-|H]; [now elim Hne|].
      repeat (destruct H as [<-|H];
              [repeat first [left; reflexivity | right]|]).
      contradiction.
  - assert (Hs : StronglySorted Z.lt HttpResponse.mapped).
    { unfold HttpResponse.mapped.
      repeat (constructor; [|repeat (constructor; [reflexivity|]); constructor]).
      constructor. }
    clear st. induction Hs as [|a l Hs IH Hall]; constructor; [|exact IH].
    intros Hin. rewrite Forall_forall in Hall.
    exact (Z.lt_irrefl a (Hall a Hin)).
  - apply Forall_forall. intros label. apply mapped_range.
Qed.

(** X14. For every status that is a case label, whatever the headers and the
    body, [getResult] prints the status line [HTTP/1.1], the code verbatim
    as three decimal digits, a space and the phrase of the code, which is
    neither empty nor the placeholder. *)
Theorem mapped_status_line (st : Z) (m : StdMap.t) (body : string) :
  In st HttpResponse.mapped ->
  exists phrase,
    eval HttpResponse.toStatusString (HttpResponse.mk st m body) = Some phrase /\
    phrase <> "<unknown-status>" /\
    phrase <> "" /\
    String.length (decimal st) = 3%nat /\
    eval HttpResponse.getResult (HttpResponse.mk st m body) =
      Some ("HTTP/1.1 " ++ decimal st ++ " " ++ phrase ++ CRLF ++
            header_block m ++ CRLF ++ body).
Proof.
  intros Hin.
  exists (HttpResponse.toStatusString_switch st).
  split; [reflexivity|].
  split; [now apply switch_mapped|].
  split.
  { clear m body. repeat (destruct Hin as [<-|Hin]; [discriminate|]).
    contradiction. }
  split.
  { clear m body. repeat (destruct Hin as [<-|Hin]; [reflexivity|]).
    contradiction. }
  rewrite response_eval_getResult. unfold status_line.
  cbn [HttpResponse.mStatus HttpResponse.mHeadField HttpResponse.mBody].
  rewrite to_string_int_small.
  - f_equal. string_normalize. reflexivity.
  - pose proof (mapped_range st Hin).
    change (2 ^ 31) with 2147483648. lia.
Qed.

Lemma mapped_status_line_witness :
  In HttpResponse.status.not_found HttpResponse.mapped /\
  exists phrase,
    eval HttpResponse.toStatusString
         (HttpResponse.mk HttpResponse.status.not_found [] "") = Some phrase /\
    phrase <> "<unknown-status>" /\
    phrase <> "" /\
    String.length (decimal HttpResponse.status.not_found) = 3%nat /\
    eval HttpResponse.getResult
         (HttpResponse.mk HttpResponse.status.not_found [] "") =
      Some ("HTTP/1.1 " ++ decimal HttpResponse.status.not_found ++ " " ++
            phrase ++ CRLF ++ header_block [] ++ CRLF ++ "").
Proof.
  assert (H : In HttpResponse.status.not_found HttpResponse.mapped).
  { unfold HttpResponse.mapped. repeat first [left; reflexivity | right]. }
  split; [exact H|].
  exact (mapped_status_line HttpResponse.status.not_found [] "" H).
Defined.

(** X15. A status from 2^31 up to the largest [unsigned] is printed as the
    negative [int] it is cast to: the status line reads [HTTP/1.1 -n] with
    n = 2^32 - status, followed by the placeholder phrase. *)
Theorem large_status_prints_negative (st : Z) (m : StdMap.t) (body : string) :
  2 ^ 31 <= st < 2 ^ 32 ->
  eval HttpResponse.getResult (HttpResponse.mk st m body) =
    Some ("HTTP/1.1 -" ++ decimal (2 ^ 32 - st) ++ " <unknown-status>" ++
          CRLF ++ header_block m ++ CRLF ++ body).
Proof.
  change (2 ^ 31) with 2147483648. change (2 ^ 32) with 4294967296.
  intros Hst.
  rewrite response_eval_getResult. unfold status_line.
  cbn [HttpResponse.mStatus HttpResponse.mHeadField HttpResponse.mBody].
  rewrite switch_default
    by (intros Hin; apply mapped_range in Hin; lia).
  assert (Hcast : static_cast_int st = st - 4294967296).
  { unfold static_cast_int.
    change (2 ^ 31) with 2147483648. change (2 ^ 32) with 4294967296.
    rewrite Z.mod_small by lia.
    destruct (Z.ltb_spec st 2147483648); [lia | reflexivity]. }
  rewrite Hcast.
  assert (Hneg : to_string_int (st - 4294967296) =
                 "-" ++ decimal (4294967296 - st)).
  { replace (4294967296 - st) with (- (st - 4294967296)) by lia.
    destruct (st - 4294967296) as [|p|p] eqn:E; [lia | lia | reflexivity]. }
  rewrite Hneg.
  f_equal. string_normalize. reflexivity.
Qed.

Lemma large_status_prints_negative_witness :
  2 ^ 31 <= 4294967000 < 2 ^ 32 /\
  eval HttpResponse.getResult (HttpResponse.mk 4294967000 [] "") =
    Some ("HTTP/1.1 -" ++ decimal (2 ^ 32 - 4294967000) ++ " <unknown-status>" ++
          CRLF ++ header_block [] ++ CRLF ++ "").
Proof.
  assert (H : 2 ^ 31 <= 4294967000 < 2 ^ 32).
  { change (2 ^ 31) with 2147483648. change (2 ^ 32) with 4294967296. lia. }
  split; [exact H|].
  exact (large_status_prints_negative 4294967000 [] "" H).
Defined.

(** ** Query strings *)

Lemma concat_head (sep a : string) (l : list string) :
  exists rest, String.concat sep (a :: l) = a ++ rest.
Proof.
  destruct l as [|b l]; simpl.
  - exists "". now rewrite append_empty_r.
  - now eexists.
Qed.

Lemma query_joined_nonempty (p : string * string) (l : list (string * string)) :
  empty (String.concat "&" (map query_pair (p :: l))) = false.
Proof.
  destruct (concat_head "&" (query_pair p) (map query_pair l)) as [rest E].
  simpl map. rewrite E.
  destruct p as [[|c k] v]; reflexivity.
Qed.

(** Whatever its arguments refer to, [add] leaves the old accumulator at
    the front of the new one. *)
Lemma query_add_extends (k v : HttpQueryParameter.argument)
    (q : HttpQueryParameter.t) :
  exists suffix,
    exec (HttpQueryParameter.add k v) q =
    Some (HttpQueryParameter.mk (HttpQueryParameter.mParameter q ++ suffix)).
Proof.
  destruct q as [acc].
  set (sep := if empty acc then "" else "&").
  set (k_now := match k with
                | HttpQueryParameter.Value s => s
                | HttpQueryParameter.Result => acc ++ sep
                end).
  set (v_now := match v with
                | HttpQueryParameter.Value s => s
                | HttpQueryParameter.Result => acc ++ sep ++ k_now ++ "="
                end).
  exists (sep ++ k_now ++ "=" ++ v_now).
  unfold HttpQueryParameter.add, HttpQueryParameter.read, exec, bind, this,
    update, pure.
  subst sep k_now v_now.
  destruct acc, k, v; simpl; do 2 f_equal; string_normalize; reflexivity.
Qed.

Lemma query_calls_extend
    (calls : list (HttpQueryParameter.argument * HttpQueryParameter.argument))
    (q : HttpQueryParameter.t) :
  exists suffix,
    exec (each (fun p => HttpQueryParameter.add (fst p) (snd p)) calls) q =
    Some (HttpQueryParameter.mk (HttpQueryParameter.mParameter q ++ suffix)).
Proof.
  revert q.
  induction calls as [|[k v] calls IH]; intros q.
  - exists "". destruct q as [acc]. cbn. now rewrite append_empty_r.
  - simpl each. rewrite exec_then. cbn [fst snd].
    destruct (query_add_extends k v q) as [s1 ->].
    destruct (IH (HttpQueryParameter.mk
                    (HttpQueryParameter.mParameter q ++ s1))) as [s2 ->].
    exists (s1 ++ s2). cbn [HttpQueryParameter.mParameter].
    now rewrite append_assoc.
Qed.

(** X16. [add] only appends. From any state of an HttpQueryParameter and
    after any further calls of [add], whatever the arguments refer to (the
    accumulator itself included), what [getResult] returned before is a
    prefix of what it returns afterwards. When the arguments are strings of
    the caller's own, [getResult] returns the old accumulator followed by the
    new pairs: joined by [&] to a non-empty accumulator and to each other,
    with no [&] after an empty one. *)
Theorem query_add_appends
    (l : list (string * string))
    (calls : list (HttpQueryParameter.argument * HttpQueryParameter.argument))
    (q : HttpQueryParameter.t) :
  eval (each add_pair l ;; HttpQueryParameter.getResult) q =
  Some (String.concat "&"
          (List.app
             (if empty (HttpQueryParameter.mParameter q) then []
              else [HttpQueryParameter.mParameter q])
             (map (fun p => fst p ++ "=" ++ snd p) l))) /\
  exists old new,
    eval HttpQueryParameter.getResult q = Some old /\
    eval (each (fun p => HttpQueryParameter.add (fst p) (snd p)) calls ;;
          HttpQueryParameter.getResult) q = Some new /\
    String.prefix old new = true.
Proof.
  split.
  - rewrite eval_then, query_adds. reflexivity.
  - destruct (query_calls_extend calls q) as [suffix Hrun].
    exists (HttpQueryParameter.mParameter q),
           (HttpQueryParameter.mParameter q ++ suffix).
    split; [reflexivity|].
    split; [now rewrite eval_then, Hrun|].
    apply prefix_append.
Qed.

(** X17. A query string assembled with HttpQueryParameter from strings of
    the caller's own and passed to [setQuery], with the url set by
    [setUrl], gives the request line
    [<METHOD> <url>?k1=v1&...&kn=vn HTTP/1.1]; when no pair was added the
    query is empty and [getResult] puts no question mark behind the url:
    the request line is [<METHOD> <url> HTTP/1.1]. *)
Theorem request_line_with_built_query
    (l : list (string * string)) (url : string) (o : HttpRequest.t) :
  exists query,
    eval (each add_pair l ;; HttpQueryParameter.getResult)
         HttpQueryParameter.construct
      = Some query /\
    eval (HttpRequest.setUrl url ;; HttpRequest.setQuery query ;;
          HttpRequest.getResult) o =
    Some (method_token (HttpRequest.mMethod o) ++ " " ++ url ++
          match l with
          | [] => ""
          | _ :: _ =>
              "?" ++ String.concat "&" (map (fun p => fst p ++ "=" ++ snd p) l)
          end ++
          " HTTP/1.1" ++ CRLF ++
          header_block (HttpRequest.mHeadField o) ++ CRLF ++
          HttpRequest.mBody o).
Proof.
  change (fun p : string * string => fst p ++ "=" ++ snd p) with query_pair.
  exists (String.concat "&" (map query_pair l)). split.
  - rewrite eval_then, query_adds. reflexivity.
  - rewrite eval_then. unfold exec at 1. cbn [HttpRequest.setUrl update option_map snd].
    rewrite eval_then. unfold exec at 1. cbn [HttpRequest.setQuery update option_map snd].
    rewrite request_eval_getResult.
    unfold request_line.
    cbn [HttpRequest.with_mUrl HttpRequest.with_mQuery HttpRequest.mUrl
         HttpRequest.mQuery HttpRequest.mMethod HttpRequest.mHeadField
         HttpRequest.mBody].
    destruct l as [|p l].
    + cbn [map String.concat empty]. f_equal. string_normalize. reflexivity.
    + rewrite query_joined_nonempty. f_equal. string_normalize. reflexivity.
Qed.

(** ** Builds with and without assertions *)

Lemma request_call_release (c : HttpRequest.setter) (o o' : HttpRequest.t) :
  exec (HttpRequest.call false c) o = Some o' ->
  exec (HttpRequest.call true c) o = Some o'.
Proof.
  destruct c; try (intros H; exact H).
  simpl. rewrite !request_setMethod. simpl.
  now destruct ((protocol >? _)%Z && _).
Qed.

Lemma request_calls_release (cs : list HttpRequest.setter)
    (o0 o : HttpRequest.t) :
  exec (each (HttpRequest.call false) cs) o0 = Some o ->
  exec (each (HttpRequest.call true) cs) o0 = Some o.
Proof.
  revert o0.
  induction cs as [|c cs IH]; intros o0 Hrun; [exact Hrun|].
  simpl each in *. rewrite exec_then in *.
  destruct (exec (HttpRequest.call false c) o0) as [o1|] eqn:E; [|discriminate].
  rewrite (request_call_release c o0 o1 E). now apply IH.
Qed.

(** X18. The assertion changes nothing but the abort: a sequence of calls that
    runs to its end with assertions compiled in leaves the same HttpRequest,
    and the same bytes from [getResult], in a build with [NDEBUG]. *)
Theorem release_agrees_with_debug
    (cs : list HttpRequest.setter) (o : HttpRequest.t) :
  HttpRequest.after false cs = Some o ->
  HttpRequest.after true cs = Some o /\
  HttpRequest.serialized true cs = HttpRequest.serialized false cs.
Proof.
  intros Hafter.
  assert (Hrel : HttpRequest.after true cs = Some o).
  { unfold HttpRequest.after, HttpRequest.construct in *.
    rewrite request_construct_over in *.
    now apply request_calls_release. }
  split; [exact Hrel|].
  now rewrite (request_serialized_after true cs o Hrel),
              (request_serialized_after false cs o Hafter).
Qed.

Lemma release_agrees_with_debug_witness :
  HttpRequest.after false sample_calls = Some sample_request /\
  HttpRequest.after true sample_calls = Some sample_request /\
  HttpRequest.serialized true sample_calls =
  HttpRequest.serialized false sample_calls.
Proof.
  split; [reflexivity|].
  apply (release_agrees_with_debug sample_calls sample_request).
  reflexivity.
Defined.
